(** * xonsh JSON history backend: a shallow embedding of
    [xonsh/history/json.py] and the properties of its retention
    policies, field accessor, flusher, session store and pull engine. *)

From Stdlib Require Import ZArith QArith Lia Ascii.
From stdpp Require Import base option list strings gmap.

Local Open Scope string_scope.
Local Open Scope list_scope.
Local Open Scope Z_scope.
Set Warnings "-register-all".

(** ** Python sequence helpers *)

Module Py.

(** [l[:stop]] for a Python list: a negative [stop] counts from the end,
    and both ends are clamped to the list.  Note that [-0 = 0], so
    [l[:-0]] is [l[:0]], the empty list. *)
Definition slice_to {A} (stop : Z) (l : list A) : list A :=
  let len := Z.of_nat (length l) in
  if stop <? 0 then take (Z.to_nat (Z.max 0 (len + stop))) l
  else take (Z.to_nat (Z.min stop len)) l.

(** [range(start, stop, step)] for [step <> 0]. *)
Definition range (start stop step : Z) : list Z :=
  let count :=
    if 0 <? step then Z.max 0 ((stop - start + step - 1) / step)
    else Z.max 0 ((start - stop - step - 1) / (- step)) in
  (fun k : nat => start + Z.of_nat k * step) <$> seq 0 (Z.to_nat count).

End Py.

(** ** Retention policies (garbage collection) *)

Module GC.

Section Policies.

(** Timestamps are Python floats.  The policies only subtract and compare
    them, so the arithmetic is kept abstract: [time] with the float
    subtraction, the float [<] and the constant [0]. *)
Context {time : Type}.
Variable time_sub : time -> time -> time.
Variable time_ltb : time -> time -> bool.
Variable time_zero : time.

(** A history file as the collector sees it:
    [(mod_ts, num_commands, path, fsize)]. *)
Definition hfile : Type := time * Z * string * Z.

(** The loop over [reversed(files)] of [_xhj_gc_commands_to_rmfiles]:
    [n] counts the newest files that fit, [ncmds] their commands. *)
Fixpoint commands_fit (hsize : Z) (rfiles : list hfile) (n : nat) (ncmds : Z)
  : nat :=
  match rfiles with
  | [] => n
  | (_, fcmds, _, _) :: rest =>
      if hsize <? ncmds + fcmds then n
      else commands_fit hsize rest (S n) (ncmds + fcmds)
  end.

Definition sum_cmds (fs : list hfile) : Z :=
  fold_left (fun acc '(_, fcmds, _, _) => acc + fcmds) fs 0.

Definition _xhj_gc_commands_to_rmfiles (hsize : Z) (files : list hfile)
  : Z * list hfile :=
  let n := commands_fit hsize (reverse files) 0%nat 0 in
  let files_removed := Py.slice_to (- Z.of_nat n) files in
  let cmds_removed := sum_cmds files_removed in
  (cmds_removed, files_removed).

Definition _xhj_gc_files_to_rmfiles (hsize : Z) (files : list hfile)
  : Z * list hfile :=
  let rmfiles :=
    if hsize <? Z.of_nat (length files) then Py.slice_to (- hsize) files
    else [] in
  (Z.of_nat (length rmfiles), rmfiles).

(** The loop of [_xhj_gc_seconds_to_rmfiles], oldest file first. *)
Fixpoint seconds_expired (now hsize : time) (files : list hfile) (n : nat)
  : nat :=
  match files with
  | [] => n
  | (ts, _, _, _) :: rest =>
      if time_ltb (time_sub now ts) hsize then n
      else seconds_expired now hsize rest (S n)
  end.

(** [now] is the value of [time.time()] read on entry. *)
Definition _xhj_gc_seconds_to_rmfiles (now hsize : time) (files : list hfile)
  : time * list hfile :=
  let n := seconds_expired now hsize files 0%nat in
  let rmfiles := Py.slice_to (Z.of_nat n) files in
  let size_over :=
    if (0 <? n)%nat then
      match rmfiles with
      | (ts0, _, _, _) :: _ => time_sub (time_sub now hsize) ts0
      | [] => time_zero (* not reached: n <= len(files) *)
      end
    else time_zero in
  (size_over, rmfiles).

(** The loop over [reversed(files)] of [_xhj_gc_bytes_to_rmfiles]. *)
Fixpoint bytes_fit (hsize : Z) (rfiles : list hfile) (n : nat) (nbytes : Z)
  : nat :=
  match rfiles with
  | [] => n
  | (_, _, _, fsize) :: rest =>
      if hsize <? nbytes + fsize then n
      else bytes_fit hsize rest (S n) (nbytes + fsize)
  end.

Definition sum_bytes (fs : list hfile) : Z :=
  fold_left (fun acc '(_, _, _, fsize) => acc + fsize) fs 0.

Definition _xhj_gc_bytes_to_rmfiles (hsize : Z) (files : list hfile)
  : Z * list hfile :=
  let n := bytes_fit hsize (reverse files) 0%nat 0 in
  let files_removed := Py.slice_to (- Z.of_nat n) files in
  let bytes_removed := sum_bytes files_removed in
  (bytes_removed, files_removed).

Definition ncmds_of (f : hfile) : Z := let '(_, fcmds, _, _) := f in fcmds.
Definition fsize_of (f : hfile) : Z := let '(_, _, _, fsize) := f in fsize.

(** The files a policy keeps are whatever it does not return. *)
Definition kept (files rmfiles : list hfile) : list hfile :=
  drop (length rmfiles) files.

(** [rmfiles] is the oldest part of the oldest-first list [files]: a
    prefix of it, the kept files being the rest, a suffix. *)
Definition oldest_prefix (files rmfiles : list hfile) : Prop :=
  rmfiles `prefix_of` files /\
  kept files rmfiles `suffix_of` files /\
  files = rmfiles ++ kept files rmfiles.

End Policies.

End GC.

(** ** Values, exceptions and the world the history code runs in *)

Module Hist.

(** JSON-like Python values held in command records and file metadata. *)
Inductive value : Type :=
| VNone
| VBool (b : bool)
| VInt (z : Z)
| VFloat (q : Q)
| VStr (s : string)
| VList (l : list value).

(** One command record: a Python dict with string keys. *)
Abbreviation cmd := (gmap string value).

(** [isinstance(v, int)]: [bool] is a subclass of [int]. *)
Definition as_int (v : value) : option Z :=
  match v with
  | VInt z => Some z
  | VBool b => Some (if b then 1 else 0)
  | _ => None
  end.

Definition as_number (v : value) : option Q :=
  match v with
  | VInt z => Some (inject_Z z)
  | VBool b => Some (inject_Z (if b then 1 else 0))
  | VFloat q => Some q
  | _ => None
  end.

(** Python's [==] on these values. *)
Fixpoint py_eq (a b : value) : bool :=
  match as_number a, as_number b with
  | Some x, Some y => Qeq_bool x y
  | _, _ =>
      match a, b with
      | VNone, VNone => true
      | VStr s, VStr t => String.eqb s t
      | VList l, VList m =>
          (fix all2 (l m : list value) : bool :=
             match l, m with
             | [], [] => true
             | x :: l', y :: m' => py_eq x y && all2 l' m'
             | _, _ => false
             end) l m
      | _, _ => false
      end
  end.

Inductive exn : Type :=
| IndexError (msg : string)
| KeyError (key : string)
| TypeError
| AttributeError
| ValueError      (* includes JSONDecodeError *)
| OSError.        (* includes FileNotFoundError *)

(** What a call does: return, raise, or wait on the condition for ever. *)
Inductive outcome (A : Type) : Type :=
| Ret (a : A)
| Raise (e : exn)
| Blocked.
Arguments Ret {A} a.
Arguments Raise {A} e.
Arguments Blocked {A}.

(** A file of the history directory whose content is a JSON document with
    a [cmds] array ([Doc]), or anything the lazy reader rejects
    ([Corrupt]).  The codec ([ljdump] / [LazyJSON.load]) is external and
    taken to round-trip, so the store holds documents, not bytes. *)
Inductive file : Type :=
| Corrupt
| Doc (cmds : list cmd) (meta : gmap string value).

Record JsonCommandField : Type := {
  jcf_id : nat;            (* object identity *)
  field : string;
  default : value
}.

Record JsonHistoryFlusher : Type := {
  hf_id : nat;             (* object identity *)
  hf_filename : string;
  hf_buffer : list cmd;    (* the tuple snapshot of the buffer *)
  hf_at_exit : bool;
  hf_skip : bool           (* whether a [skip] callback was given *)
}.

(** The [JsonHistory] object. *)
Record JsonHistory : Type := {
  filename : string;
  buffer : list cmd;
  _queue : list nat;       (* deque of waiting objects, by identity *)
  _len : Z;
  _skipped : Z;
  remember_history : bool;
  last_pull_times : gmap (option string) Q;  (* key [None]: all sessions *)
  tss : JsonCommandField;
  inps : JsonCommandField;
  outs : JsonCommandField;
  rtns : JsonCommandField;
  cwds : JsonCommandField
}.

Record world : Type := {
  fs : gmap string file;               (* path -> content; absent = no file *)
  dir_listing : list (string * Q);     (* (fullpath, mtime) of both data dirs *)
  HISTCONTROL : gset string;
  XONSH_STORE_STDOUT : bool;
  XONSH_HISTORY_FILE : option string;
  data_dir : string;                   (* [_xhj_get_data_dir()] *)
  clock : Q;                           (* what [time.time()] returns *)
  prompter : option (list string);     (* the shell's prompter history,
                                          if the shell has a prompter *)
  stdout : list string;                (* lines printed *)
  next_id : nat;                       (* next fresh object identity *)
  hist : JsonHistory
}.

Definition with_hist (f : JsonHistory -> JsonHistory) (w : world) : world :=
  {| fs := fs w; dir_listing := dir_listing w; HISTCONTROL := HISTCONTROL w;
     XONSH_STORE_STDOUT := XONSH_STORE_STDOUT w;
     XONSH_HISTORY_FILE := XONSH_HISTORY_FILE w; data_dir := data_dir w;
     clock := clock w; prompter := prompter w; stdout := stdout w;
     next_id := next_id w; hist := f (hist w) |}.

Definition with_fs (f : gmap string file -> gmap string file) (w : world)
  : world :=
  {| fs := f (fs w); dir_listing := dir_listing w;
     HISTCONTROL := HISTCONTROL w;
     XONSH_STORE_STDOUT := XONSH_STORE_STDOUT w;
     XONSH_HISTORY_FILE := XONSH_HISTORY_FILE w; data_dir := data_dir w;
     clock := clock w; prompter := prompter w; stdout := stdout w;
     next_id := next_id w; hist := hist w |}.

Definition with_next_id (n : nat) (w : world) : world :=
  {| fs := fs w; dir_listing := dir_listing w; HISTCONTROL := HISTCONTROL w;
     XONSH_STORE_STDOUT := XONSH_STORE_STDOUT w;
     XONSH_HISTORY_FILE := XONSH_HISTORY_FILE w; data_dir := data_dir w;
     clock := clock w; prompter := prompter w; stdout := stdout w;
     next_id := n; hist := hist w |}.

Definition with_prompter (p : option (list string)) (w : world) : world :=
  {| fs := fs w; dir_listing := dir_listing w; HISTCONTROL := HISTCONTROL w;
     XONSH_STORE_STDOUT := XONSH_STORE_STDOUT w;
     XONSH_HISTORY_FILE := XONSH_HISTORY_FILE w; data_dir := data_dir w;
     clock := clock w; prompter := p; stdout := stdout w;
     next_id := next_id w; hist := hist w |}.

Definition with_stdout (o : list string) (w : world) : world :=
  {| fs := fs w; dir_listing := dir_listing w; HISTCONTROL := HISTCONTROL w;
     XONSH_STORE_STDOUT := XONSH_STORE_STDOUT w;
     XONSH_HISTORY_FILE := XONSH_HISTORY_FILE w; data_dir := data_dir w;
     clock := clock w; prompter := prompter w; stdout := o;
     next_id := next_id w; hist := hist w |}.

Definition set_last_pull_times (m : gmap (option string) Q)
    (h : JsonHistory) : JsonHistory :=
  {| filename := filename h; buffer := buffer h; _queue := _queue h;
     _len := _len h; _skipped := _skipped h;
     remember_history := remember_history h;
     last_pull_times := m; tss := tss h; inps := inps h;
     outs := outs h; rtns := rtns h; cwds := cwds h |}.

Definition set_remember_history (b : bool) (h : JsonHistory)
  : JsonHistory :=
  {| filename := filename h; buffer := buffer h; _queue := _queue h;
     _len := _len h; _skipped := _skipped h; remember_history := b;
     last_pull_times := last_pull_times h; tss := tss h; inps := inps h;
     outs := outs h; rtns := rtns h; cwds := cwds h |}.

Definition set_buffer (b : list cmd) (h : JsonHistory) : JsonHistory :=
  {| filename := filename h; buffer := b; _queue := _queue h;
     _len := _len h; _skipped := _skipped h;
     remember_history := remember_history h;
     last_pull_times := last_pull_times h; tss := tss h; inps := inps h;
     outs := outs h; rtns := rtns h; cwds := cwds h |}.

Definition set_queue (q : list nat) (h : JsonHistory) : JsonHistory :=
  {| filename := filename h; buffer := buffer h; _queue := q;
     _len := _len h; _skipped := _skipped h;
     remember_history := remember_history h;
     last_pull_times := last_pull_times h; tss := tss h; inps := inps h;
     outs := outs h; rtns := rtns h; cwds := cwds h |}.

Definition set_skipped (n : Z) (h : JsonHistory) : JsonHistory :=
  {| filename := filename h; buffer := buffer h; _queue := _queue h;
     _len := _len h; _skipped := n;
     remember_history := remember_history h;
     last_pull_times := last_pull_times h; tss := tss h; inps := inps h;
     outs := outs h; rtns := rtns h; cwds := cwds h |}.

(** ** The monad: state passing, with the state kept when a call raises *)

Definition M (A : Type) : Type := world -> outcome A * world.

Definition ret {A} (a : A) : M A := fun w => (Ret a, w).
Definition raise {A} (e : exn) : M A := fun w => (Raise e, w).
Definition block {A} : M A := fun w => (Blocked, w).
Definition bind {A B} (m : M A) (k : A -> M B) : M B :=
  fun w =>
    match m w with
    | (Ret a, w') => k a w'
    | (Raise e, w') => (Raise e, w')
    | (Blocked, w') => (Blocked, w')
    end.
Definition get : M world := fun w => (Ret w, w).
Definition modify (f : world -> world) : M unit := fun w => (Ret tt, f w).

Declare Scope py_scope.
Delimit Scope py_scope with py.
Notation "x <- c ;; k" := (bind c (fun x => k))
  (at level 100, c at next level, right associativity) : py_scope.
Notation "c ;;; k" := (bind c (fun _ => k))
  (at level 100, right associativity) : py_scope.
Local Open Scope py_scope.

Fixpoint mapM {A B} (f : A -> M B) (l : list A) : M (list B) :=
  match l with
  | [] => ret []
  | a :: l' => b <- f a ;; bs <- mapM f l' ;; ret (b :: bs)
  end.

(** [keeps R m]: however [m] ends, the world it leaves is [R]-related to
    the world it started in. *)
Definition keeps {A} (R : relation world) (m : M A) : Prop :=
  forall w o w', m w = (o, w') -> R w w'.

(** What [pull] may change besides the cursors: the prompter and the
    printed lines, nothing of the history object or the clock. *)
Definition same_hist (w w' : world) : Prop :=
  hist w' = hist w /\ clock w' = clock w.

(** ** Primitive operations *)

(** [time.time()] *)
Definition time_time : M Q := fun w => (Ret (clock w), w).

(** A fresh object identity (object allocation). *)
Definition fresh : M nat :=
  fun w => (Ret (next_id w), with_next_id (S (next_id w)) w).

(** [d[k]] on a dict *)
Definition dict_getitem (d : cmd) (k : string) : M value :=
  match d !! k with
  | Some v => ret v
  | None => raise (KeyError k)
  end.

(** [d.get(k, dflt)] *)
Definition dict_get (d : cmd) (k : string) (dflt : value) : value :=
  match d !! k with
  | Some v => v
  | None => dflt
  end.

(** [len(hist)], i.e. [JsonHistory.__len__] called through [len()], which
    rejects a negative result. *)
Definition hist_len : M Z :=
  fun w =>
    let n := _len (hist w) - _skipped (hist w) in
    if n <? 0 then (Raise ValueError, w) else (Ret n, w).

(** [queue.append(obj)] *)
Definition queue_append (id : nat) : M unit :=
  modify (with_hist (fun h => set_queue (_queue h ++ [id]) h)).

(** [queue.popleft()] *)
Definition queue_popleft : M nat :=
  fun w =>
    match _queue (hist w) with
    | [] => (Raise (IndexError "pop from an empty deque"), w)
    | x :: q => (Ret x, with_hist (set_queue q) w)
    end.

(** [cond.wait_for(self.i_am_at_the_front)] with
    [i_am_at_the_front = (self is queue[0])].  Nothing in the module ever
    notifies the condition, so a waiter that is not at the front when it
    looks stays blocked. *)
Definition wait_for_front (id : nat) : M unit :=
  fun w =>
    match _queue (hist w) with
    | [] => (Raise (IndexError "deque index out of range"), w)
    | x :: _ => if Nat.eqb x id then (Ret tt, w) else (Blocked, w)
    end.

(** [open(path)] followed by [LazyJSON(f).load()] (or by indexed access
    through the lazy reader). *)
Definition read_doc (path : string) : M (list cmd * gmap string value) :=
  fun w =>
    match fs w !! path with
    | None => (Raise OSError, w)
    | Some Corrupt => (Raise ValueError, w)
    | Some (Doc cmds meta) => (Ret (cmds, meta), w)
    end.

(** [open(path, "w")] followed by [ljdump(hist, f)]. *)
Definition write_doc (path : string) (cmds : list cmd)
    (meta : gmap string value) : M unit :=
  modify (with_fs (fun m => <[path := Doc cmds meta]> m)).

(** Modelled from the spec: indexed access [lj["cmds"][key]] of the lazy
    reader [xonsh.lib.lazyjson], which is not part of the sources: it
    materializes the one array element at [key]. *)
Definition lj_cmds_getitem (cmds : list cmd) (key : Z) : M cmd :=
  if (0 <=? key) && (key <? Z.of_nat (length cmds)) then
    match cmds !! Z.to_nat key with
    | Some c => ret c
    | None => raise (IndexError "list index out of range")
    end
  else raise (IndexError "list index out of range").

(** ** JsonHistoryFlusher *)

(** The [skip] closure of [JsonHistory.flush]: [self._skipped += num]. *)
Definition skip (hf : JsonHistoryFlusher) (num : Z) : M unit :=
  if hf_skip hf then
    modify (with_hist (fun h => set_skipped (_skipped h + num) h))
  else ret tt.

(** The first loop of [dump]: the commands that survive [HISTCONTROL]. *)
Fixpoint dump_select (hf : JsonHistoryFlusher) (opts : gset string)
    (buf : list cmd) (last_inp : value) (cmds : list cmd) : M (list cmd) :=
  match buf with
  | [] => ret cmds
  | c :: rest =>
      dup <- (if bool_decide ("ignoredups" ∈ opts)
              then inp <- dict_getitem c "inp" ;; ret (py_eq inp last_inp)
              else ret false) ;;
      if (dup : bool) then
        skip hf 1 ;;; dump_select hf opts rest last_inp cmds
      else
        err <- (if bool_decide ("ignoreerr" ∈ opts)
                then rtn <- dict_getitem c "rtn" ;;
                     ret (negb (py_eq rtn (VInt 0)))
                else ret false) ;;
        if (err : bool) then
          skip hf 1 ;;; dump_select hf opts rest last_inp cmds
        else
          inp <- dict_getitem c "inp" ;;
          dump_select hf opts rest inp (cmds ++ [c])
  end.

(** [hist["ts"][1] = now] *)
Definition set_ts_end (now : Q) (ts : value) : M value :=
  match ts with
  | VList l =>
      if (1 <? length l)%nat then ret (VList (<[1%nat := VFloat now]> l))
      else raise (IndexError "list assignment index out of range")
  | _ => raise TypeError
  end.

Definition dump (hf : JsonHistoryFlusher) : M unit :=
  w <- get ;;
  cmds <- dump_select hf (HISTCONTROL w) (hf_buffer hf) VNone [] ;;
  d <- read_doc (hf_filename hf) ;;
  let '(old, meta) := d in
  meta <- (if hf_at_exit hf then
             meta <- (match meta !! "ts" with
                      | Some ts =>
                          now <- time_time ;;
                          ts' <- set_ts_end now ts ;;
                          ret (<["ts" := ts']> meta)
                      | None => ret meta
                      end) ;;
             ret (<["locked" := VBool false]> meta)
           else ret meta) ;;
  let new :=
    if XONSH_STORE_STDOUT w then cmds else delete "out" <$> cmds in
  write_doc (hf_filename hf) (old ++ new) meta.

(** [JsonHistoryFlusher.run], the body of the thread. *)
Definition run (hf : JsonHistoryFlusher) : M unit :=
  wait_for_front (hf_id hf) ;;;
  dump hf ;;;
  _ <- queue_popleft ;;
  ret tt.

(** [JsonHistoryFlusher.__init__]; when [at_exit] is false the thread is
    only started, and its body [run] is a step of its own. *)
Definition JsonHistoryFlusher_init (fname : string) (buf : list cmd)
    (at_exit : bool) (with_skip : bool) : M JsonHistoryFlusher :=
  id <- fresh ;;
  let self := {| hf_id := id; hf_filename := fname; hf_buffer := buf;
                 hf_at_exit := at_exit; hf_skip := with_skip |} in
  queue_append id ;;;
  if at_exit then
    dump self ;;;
    _ <- queue_popleft ;;
    ret self
  else ret self.

(** ** JsonCommandField *)

(** A subscript: a slice object, or any other value. *)
Inductive key : Type :=
| KSlice (start stop step : option Z)
| KVal (v : value).

(** [slice(start, stop, step).indices(length)] *)
Definition slice_indices (start stop step : option Z) (length : Z)
  : M (Z * Z * Z) :=
  let step := match step with Some s => s | None => 1 end in
  if step =? 0 then raise ValueError
  else
    let lower := if step <? 0 then -1 else 0 in
    let upper := if step <? 0 then length - 1 else length in
    let clamp (i : Z) :=
      if i <? 0 then Z.max (i + length) lower else Z.min i upper in
    let start :=
      match start with
      | None => if step <? 0 then upper else lower
      | Some i => clamp i
      end in
    let stop :=
      match stop with
      | None => if step <? 0 then lower else upper
      | Some i => clamp i
      end in
    ret (start, stop, step).

(** [__getitem__] at a key that is an [int]. *)
Definition getitem_int (self : JsonCommandField) (k : Z) : M value :=
  w <- get ;;
  if negb (remember_history (hist w)) then ret (VStr "")
  else
    size <- hist_len ;;
    if size =? 0 then raise (IndexError "JsonCommandField is empty.")
    else
      (* now we know we have an int *)
      let k := if k <? 0 then size + k else k in
      let bufsize := Z.of_nat (length (buffer (hist w))) in
      if size - bufsize <=? k then
        (* key is in buffer *)
        match buffer (hist w) !! Z.to_nat (k + bufsize - size) with
        | Some c => ret (dict_get c (field self) (default self))
        | None => raise (IndexError "list index out of range")
        end
      else
        (* now we know we have to go into the file *)
        queue_append (jcf_id self) ;;;
        wait_for_front (jcf_id self) ;;;
        d <- read_doc (filename (hist w)) ;;
        c <- lj_cmds_getitem (fst d) k ;;
        let rtn := dict_get c (field self) (default self) in
        _ <- queue_popleft ;;
        ret rtn.

(** [JsonCommandField.__getitem__] *)
Definition getitem (self : JsonCommandField) (k : key) : M value :=
  w <- get ;;
  if negb (remember_history (hist w)) then ret (VStr "")
  else
    size <- hist_len ;;
    match k with
    | KSlice start stop step =>
        r <- slice_indices start stop step size ;;
        let '(a, b, st) := r in
        vs <- mapM (getitem_int self) (Py.range a b st) ;;
        ret (VList vs)
    | KVal v =>
        match as_int v with
        | None =>
            raise
              (IndexError
                 "JsonCommandField may only be indexed by int or slice.")
        | Some z => getitem_int self z
        end
    end.

(** ** JsonHistory *)

(** [JsonHistory.flush] *)
Definition flush (at_exit : bool) : M (option JsonHistoryFlusher) :=
  w <- get ;;
  match buffer (hist w) with
  | [] => ret None
  | _ :: _ =>
      hf <- JsonHistoryFlusher_init (filename (hist w)) (buffer (hist w))
              at_exit true ;;
      modify (with_hist (set_buffer [])) ;;;
      ret (Some hf)
  end.

(** [JsonCommandField(field, self)] *)
Definition JsonCommandField_init (fld : string) : M JsonCommandField :=
  id <- fresh ;;
  ret {| jcf_id := id; field := fld; default := VNone |}.

(** [JsonHistory.clear] *)
Definition clear : M unit :=
  modify (with_hist (set_buffer [])) ;;;
  t <- JsonCommandField_init "ts" ;;
  i <- JsonCommandField_init "inp" ;;
  o <- JsonCommandField_init "out" ;;
  r <- JsonCommandField_init "rtn" ;;
  c <- JsonCommandField_init "cwd" ;;
  modify (with_hist (fun h =>
    {| filename := filename h; buffer := buffer h; _queue := _queue h;
       _len := 0; _skipped := 0; remember_history := remember_history h;
       last_pull_times := last_pull_times h;
       tss := t; inps := i; outs := o; rtns := r; cwds := c |})) ;;;
  (* Flush empty history object to disk, overwriting previous data. *)
  _ <- flush false ;;
  ret tt.

(** [pattern.match(c["inp"])] for a compiled pattern whose [match] is
    [pmatch]; the [re] module is external. *)
Definition match_inp (pmatch : string -> bool) (c : cmd) : exn + bool :=
  match c !! "inp" with
  | None => inl (KeyError "inp")
  | Some (VStr s) => inr (pmatch s)
  | Some _ => inl TypeError
  end.

(** [for i, c in enumerate(l): if pattern.match(c["inp"]): del l[i]].
    The list iterator holds an index into the list it walks: each turn
    yields [l[i]] of the list as it is by then and moves on to [i + 1];
    the loop ends when [i] reaches the current length.  [fuel] bounds the
    number of turns.  The list is mutated in place, so it is returned as
    it stands also when a turn raises. *)
Fixpoint delete_scan (pmatch : string -> bool) (fuel : nat) (i : nat)
    (l : list cmd) (deleted : Z) : list cmd * Z * option exn :=
  match fuel with
  | O => (l, deleted, None)
  | S fuel' =>
      match l !! i with
      | None => (l, deleted, None)
      | Some c =>
          match match_inp pmatch c with
          | inl e => (l, deleted, Some e)
          | inr true =>
              delete_scan pmatch fuel' (S i) (delete i l) (deleted + 1)
          | inr false => delete_scan pmatch fuel' (S i) l deleted
          end
      end
  end.

(** The loop run to its end: the iterator index grows by one each turn,
    so [length l] turns are enough. *)
Definition delete_matching (pmatch : string -> bool) (l : list cmd)
    (deleted : Z) : list cmd * Z * option exn :=
  delete_scan pmatch (length l) 0 l deleted.

(** Stable insertion sort by a rational key, as [list.sort(key=...)]
    ([reverse] for [reverse=True], which also keeps equal elements in
    their original order). *)
Fixpoint insert_by {A} (keyf : A -> Q) (reverse : bool) (x : A)
    (l : list A) : list A :=
  match l with
  | [] => [x]
  | y :: l' =>
      if (if reverse then Qle_bool (keyf y) (keyf x)
          else Qle_bool (keyf x) (keyf y))
      then x :: y :: l'
      else y :: insert_by keyf reverse x l'
  end.

Definition sort_by {A} (keyf : A -> Q) (reverse : bool) (l : list A)
  : list A :=
  foldr (insert_by keyf reverse) [] l.

(** [_xhj_get_history_files(sort, newest_first, modified_since)].  The
    directory scan of [_xhj_get_data_dir_files] over both data
    directories is the oracle [dir_listing]; paths are taken as already
    absolute. *)
Definition _xhj_get_history_files (sort : bool) (newest_first : bool)
    (modified_since : option Q) : M (list string) :=
  w <- get ;;
  let files :=
    List.filter (fun fm : string * Q =>
                   match modified_since with
                   | None => true
                   | Some t => negb (Qle_bool (snd fm) t)
                   end) (dir_listing w) in
  let files := if sort then sort_by snd newest_first files else files in
  (* drop the mtimes *)
  let files := fst <$> files in
  ret (match XONSH_HISTORY_FILE w with
       | Some custom =>
           if String.eqb custom "" then files
           else if bool_decide (custom ∈ files) then files
           else custom :: files
       | None => files
       end).

(** The second loop of [JsonHistory.delete], over the history files. *)
Fixpoint delete_files (pmatch : string -> bool) (files : list string)
    (deleted : Z) : M Z :=
  match files with
  | [] => ret deleted
  | f :: rest =>
      w <- get ;;
      match fs w !! f with
      | None => raise OSError
      | Some Corrupt => delete_files pmatch rest deleted (* invalid json *)
      | Some (Doc commands meta) =>
          match delete_matching pmatch commands deleted with
          | (_, _, Some e) => raise e
          | (commands', deleted', None) =>
              write_doc f commands' meta ;;;
              delete_files pmatch rest deleted'
          end
      end
  end.

(** [JsonHistory.delete], for a pattern that compiles; the wait for a
    running collector is a polling loop that is taken to end. *)
Definition delete (pmatch : string -> bool) : M Z :=
  w <- get ;;
  (* First, delete any matching commands in the in-memory buffer. *)
  match delete_matching pmatch (buffer (hist w)) 0 with
  | (buf, deleted, e) =>
      modify (with_hist (set_buffer buf)) ;;;
      match e with
      | Some e => raise e
      | None =>
          (* Then, delete any matching commands on disk. *)
          files <- _xhj_get_history_files true false None ;;
          delete_files pmatch files deleted
      end
  end.

(** A flush followed by the run of the flusher thread it started (a
    flush at exit runs the dump itself). *)
Definition flush_and_join (at_exit : bool) : M unit :=
  hf <- flush at_exit ;;
  match hf with
  | Some hf => if at_exit then ret tt else run hf
  | None => ret tt
  end.

(** ** Pull engine *)

(** [os.path.split(path)[-1]]: what follows the last ["/"]. *)
Fixpoint basename_from (s acc : string) : string :=
  match s with
  | EmptyString => acc
  | String c s' =>
      if Ascii.eqb c "/"%char then basename_from s' ""
      else basename_from s' (acc +:+ String c "")
  end.

(** [s[6:-5]] *)
Definition strip_prefix_suffix (s : string) : string :=
  let len := String.length s in
  String.substring 6 (len - 5 - 6) s.

(** [item["ts"][1]] as a number to compare. *)
Definition ts_end (item : cmd) : M Q :=
  ts <- dict_getitem item "ts" ;;
  match ts with
  | VList l =>
      match l !! 1%nat with
      | Some v =>
          match as_number v with
          | Some q => ret q
          | None => raise TypeError
          end
      | None => raise (IndexError "list index out of range")
      end
  | _ => raise TypeError
  end.

(** [for i in range(len(cmds) - 1, -1, -1)] of [_xhj_pull_items], over
    the commands newest first: collect until one is not newer than
    [cutoff]. *)
Fixpoint pull_newer (cutoff : Q) (rcmds : list cmd) (items : list (Q * cmd))
  : M (list (Q * cmd)) :=
  match rcmds with
  | [] => ret items
  | item :: rest =>
      t <- ts_end item ;;
      if negb (Qle_bool t cutoff) then pull_newer cutoff rest (items ++ [(t, item)])
      else ret items
  end.

(** The loop over [src_paths] of [_xhj_pull_items]. *)
Fixpoint pull_paths (pull_times : gmap (option string) Q)
    (last_full_pull_time : Q) (current_session_path : string)
    (src_paths : list string) (items : list (Q * cmd))
  : M (list (Q * cmd)) :=
  match src_paths with
  | [] => ret items
  | path :: rest =>
      if String.eqb path current_session_path then
        pull_paths pull_times last_full_pull_time current_session_path
          rest items
      else
        w <- get ;;
        match fs w !! path with
        | None => raise OSError
        | Some Corrupt =>
            pull_paths pull_times last_full_pull_time current_session_path
              rest items
        | Some (Doc cmds _) =>
            let sessionid := strip_prefix_suffix (basename_from path "") in
            let cutoff :=
              match pull_times !! Some sessionid with
              | Some t => t
              | None => last_full_pull_time
              end in
            items <- pull_newer cutoff (reverse cmds) items ;;
            pull_paths pull_times last_full_pull_time current_session_path
              rest items
        end
  end.

(** [_xhj_pull_items(pull_times, src_sessionid)].  The current session's
    path is [$XONSH_HISTORY_FILE] made absolute; when that is unset the
    source compares with the working directory, which is no history
    file, modelled by the empty path. *)
Definition _xhj_pull_items (pull_times : gmap (option string) Q)
    (src_sessionid : option string) : M (list cmd) :=
  match pull_times !! None with
  | None => raise (KeyError "None")
  | Some last_full_pull_time =>
      w <- get ;;
      src_paths <-
        match src_sessionid with
        | Some sid =>
            if String.eqb sid "" then
              _xhj_get_history_files true false (Some last_full_pull_time)
            else ret [data_dir w +:+ "/xonsh-" +:+ sid +:+ ".json"]
        | None =>
            _xhj_get_history_files true false (Some last_full_pull_time)
        end ;;
      let current_session_path :=
        match XONSH_HISTORY_FILE w with Some p => p | None => "" end in
      items <- pull_paths pull_times last_full_pull_time
                 current_session_path src_paths [] ;;
      ret (snd <$> sort_by fst false items)
  end.

Section Pull.

(** [str.rstrip()], a builtin. *)
Variable rstrip : string -> string.

(** [item["inp"].rstrip()] *)
Definition inp_line (item : cmd) : M string :=
  v <- dict_getitem item "inp" ;;
  match v with
  | VStr s => ret (rstrip s)
  | _ => raise AttributeError
  end.

(** The loop of [JsonHistory.pull] over the pulled items. *)
Fixpoint pull_feed (show_commands : bool) (items : list cmd)
    (prev : option string) (cnt : Z) : M Z :=
  match items with
  | [] => ret cnt
  | item :: rest =>
      line <- inp_line item ;;
      (if show_commands
       then modify (fun w => with_stdout (stdout w ++ [line]) w)
       else ret tt) ;;;
      if bool_decide (Some line = prev) then
        pull_feed show_commands rest (Some line) cnt
      else
        modify (fun w =>
          with_prompter ((fun h => h ++ [line]) <$> prompter w) w) ;;;
        pull_feed show_commands rest (Some line) (cnt + 1)
  end.

(** [JsonHistory.pull] *)
Definition pull (show_commands : bool) (src_sessionid : option string)
  : M Z :=
  w <- get ;;
  match prompter w with
  | None =>
      modify (with_stdout (stdout w ++ ["Shell type is not supported."])) ;;;
      ret 0
  | Some _ =>
      items <- _xhj_pull_items (last_pull_times (hist w)) src_sessionid ;;
      cnt <- pull_feed show_commands items None 0 ;;
      (* we can dump the session-specific pull times if this is a full
         pull *)
      (match src_sessionid with
       | None => modify (with_hist (set_last_pull_times ∅))
       | Some _ => ret tt
       end) ;;;
      now <- time_time ;;
      modify (with_hist (fun h =>
        set_last_pull_times (<[src_sessionid := now]> (last_pull_times h))
          h)) ;;;
      ret cnt
  end.

End Pull.

End Hist.
(** ** Concrete sessions used in the examples *)

Module Examples.
Import Hist.

Definition entry (inp : string) (out : string) : cmd :=
  {[ "inp" := VStr inp; "rtn" := VInt 0; "out" := VStr out;
     "ts" := VList [VFloat 1; VFloat 2] ]}.

Definition session_file : string := "/data/history_json/xonsh-s1.json".

Definition session_meta : gmap string value :=
  {[ "sessionid" := VStr "s1"; "locked" := VBool true;
     "ts" := VList [VFloat 0; VNone] ]}.

Definition accessor (id : nat) (fld : string) : JsonCommandField :=
  {| jcf_id := id; field := fld; default := VNone |}.

(** A session with [len] logical entries, [buf] of them still buffered,
    whose files are [files]. *)
Definition session (files : gmap string file) (buf : list cmd) (len : Z)
    (pulls : gmap (option string) Q) (shell : option (list string))
  : world :=
  {| fs := files;
     dir_listing := [(session_file, 5%Q)];
     HISTCONTROL := ∅;
     XONSH_STORE_STDOUT := false;
     XONSH_HISTORY_FILE := None;
     data_dir := "/data/history_json";
     clock := 100%Q;
     prompter := shell;
     stdout := [];
     next_id := 5;
     hist := {| filename := session_file; buffer := buf; _queue := [];
                _len := len; _skipped := 0; remember_history := true;
                last_pull_times := pulls;
                tss := accessor 0 "ts"; inps := accessor 1 "inp";
                outs := accessor 2 "out"; rtns := accessor 3 "rtn";
                cwds := accessor 4 "cwd" |} |}.

(** One command already flushed to the session file, none buffered. *)
Definition flushed_one : world :=
  session {[ session_file := Doc [entry "ls" "a.txt"] session_meta ]}
    [] 1 {[ None := 50%Q ]} (Some []).

(** The session file is gone (or unreadable) while one command is
    recorded as flushed. *)
Definition file_missing : world :=
  session ∅ [] 1 {[ None := 50%Q ]} (Some []).

(** One command still in the buffer, the file holding none. *)
Definition buffered_one : world :=
  session {[ session_file := Doc [] session_meta ]}
    [entry "ls" "a.txt"] 1 {[ None := 50%Q ]} (Some []).

(** Two adjacent matching commands in the buffer and two in the file. *)
Definition two_and_two : world :=
  session {[ session_file :=
               Doc [entry "rm a" ""; entry "rm b" ""] session_meta ]}
    [entry "rm c" ""; entry "rm d" ""] 4 {[ None := 50%Q ]} (Some []).

(** A shell without a prompter, with per-source cursors recorded. *)
Definition no_prompter : world :=
  session {[ session_file := Doc [] session_meta ]}
    [] 0 {[ None := 50%Q; Some "s2" := 60%Q ]} None.

(** A fresh session: nothing recorded yet. *)
Definition empty_session : world :=
  session {[ session_file := Doc [] session_meta ]}
    [] 0 {[ None := 50%Q ]} (Some []).

(** History recording switched off. *)
Definition disabled : world :=
  with_hist (set_remember_history false) file_missing.

(** [buffered_one] after [flush()] has started a flusher thread that has
    not run yet, and that flusher. *)
Definition pending_flush : world := (flush false buffered_one).2.

Definition pending_flusher : JsonHistoryFlusher :=
  {| hf_id := 5; hf_filename := session_file;
     hf_buffer := [entry "ls" "a.txt"]; hf_at_exit := false;
     hf_skip := true |}.

(** With ["ignoredups"], three buffered commands of which the second
    repeats the first. *)
Definition dups_buffered : world :=
  {| fs := {[ session_file := Doc [] session_meta ]};
     dir_listing := [(session_file, 5%Q)];
     HISTCONTROL := {[ "ignoredups" ]};
     XONSH_STORE_STDOUT := true;
     XONSH_HISTORY_FILE := None;
     data_dir := "/data/history_json";
     clock := 100%Q;
     prompter := Some [];
     stdout := [];
     next_id := 5;
     hist := {| filename := session_file;
                buffer := [entry "ls" ""; entry "ls" ""; entry "pwd" ""];
                _queue := []; _len := 3; _skipped := 0;
                remember_history := true;
                last_pull_times := {[ None := 50%Q ]};
                tss := accessor 0 "ts"; inps := accessor 1 "inp";
                outs := accessor 2 "out"; rtns := accessor 3 "rtn";
                cwds := accessor 4 "cwd" |} |}.

(** Another session's file with one command newer than the last pull. *)
Definition other_file : string := "/data/history_json/xonsh-s2.json".

Definition entry_at (inp : string) (t : Q) : cmd :=
  {[ "inp" := VStr inp; "rtn" := VInt 0;
     "ts" := VList [VFloat t; VFloat t] ]}.

(** A shell with a prompter, cursors for all sessions and for [s2], and
    the other session's file in the data directory. *)
Definition with_other_session : world :=
  {| fs := {[ session_file := Doc [] session_meta;
              other_file := Doc [entry_at "make" 70] session_meta ]};
     dir_listing := [(session_file, 5%Q); (other_file, 80%Q)];
     HISTCONTROL := ∅;
     XONSH_STORE_STDOUT := false;
     XONSH_HISTORY_FILE := Some session_file;
     data_dir := "/data/history_json";
     clock := 100%Q;
     prompter := Some [];
     stdout := [];
     next_id := 5;
     hist := {| filename := session_file; buffer := [];
                _queue := []; _len := 0; _skipped := 0;
                remember_history := true;
                last_pull_times := {[ None := 50%Q; Some "s2" := 60%Q ]};
                tss := accessor 0 "ts"; inps := accessor 1 "inp";
                outs := accessor 2 "out"; rtns := accessor 3 "rtn";
                cwds := accessor 4 "cwd" |} |}.

(** A pattern that matches every input starting with ["rm"]. *)
Definition starts_with_rm (s : string) : bool :=
  String.prefix "rm" s.

End Examples.

From Stdlib Require Import Sorted.
Open Scope Z_scope.

(** ** The collector's run, and helpers to state what the policies keep *)

Module GCRun.
Import GC.

Section Metrics.

Context {time : Type}.

Definition ts_of (f : @hfile time) : time := let '(ts, _, _, _) := f in ts.
Definition path_of (f : @hfile time) : string := let '(_, _, p, _) := f in p.

(** The loop shared by the command-count and the byte-size policy, for a
    metric [m]: how many of the newest files fit under [hsize]. *)
Fixpoint fit_by (m : @hfile time -> Z) (hsize : Z) (rfiles : list (@hfile time))
    (n : nat) (acc : Z) : nat :=
  match rfiles with
  | [] => n
  | f :: rest =>
      if hsize <? acc + m f then n
      else fit_by m hsize rest (S n) (acc + m f)
  end.

(** The sum of a metric over files. *)
Definition total (m : @hfile time -> Z) (fs : list (@hfile time)) : Z :=
  foldr (fun f acc => m f + acc) 0 fs.

End Metrics.

(** What a run of the collector leaves behind. *)
Record gc_result : Type := {
  gc_size_over : Q;
  gc_rm_files : list (@hfile Q);
  gc_hist_size : Q;            (* [hist.hist_size] *)
  gc_hist_units : string;      (* [hist.hist_units] *)
  gc_warned : bool;            (* the warning was printed *)
  gc_fs : gmap string Hist.file
}.

(** [self.gc_units_to_rmfiles.get(units)] applied to [(hsize, files)].
    Sizes are Python numbers; they are taken as rationals, and [now] is
    what [time.time()] returns in the age policy. *)
Definition rmfiles_fn (units : string) (now : Q) (hsize : Z)
    (files : list (@hfile Q)) : option (Q * list (@hfile Q)) :=
  if String.eqb units "commands" then
    let '(over, rm) := _xhj_gc_commands_to_rmfiles hsize files in
    Some (inject_Z over, rm)
  else if String.eqb units "files" then
    let '(over, rm) := _xhj_gc_files_to_rmfiles hsize files in
    Some (inject_Z over, rm)
  else if String.eqb units "s" then
    Some (_xhj_gc_seconds_to_rmfiles Qminus
            (fun a b => negb (Qle_bool b a)) 0%Q now (inject_Z hsize) files)
  else if String.eqb units "b" then
    let '(over, rm) := _xhj_gc_bytes_to_rmfiles hsize files in
    Some (inject_Z over, rm)
  else None.

(** [os.remove(f)] for each file to remove; a failing removal ([OSError],
    here a missing file) is passed over. *)
Definition remove_files (rm : list (@hfile Q)) (fs : gmap string Hist.file)
  : gmap string Hist.file :=
  fold_left (fun m f => delete (path_of f) m) rm fs.

(** [JsonHistoryGC.run] once the shell is up, for the history size
    [(hsize, units)] already read from the environment and [files] the
    result of [self.files(only_unlocked=True)]. *)
Definition run (force_gc : bool) (units : string) (hsize : Z) (now : Q)
    (files : list (@hfile Q)) (fs : gmap string Hist.file)
  : Hist.exn + gc_result :=
  match rmfiles_fn units now hsize files with
  | None => inl Hist.ValueError
  | Some (size_over, rm_files) =>
      let go := force_gc || negb (Qle_bool (inject_Z hsize) size_over) in
      inr {| gc_size_over := size_over;
             gc_rm_files := rm_files;
             gc_hist_size := (size_over + inject_Z hsize)%Q;
             gc_hist_units := units;
             gc_warned := negb go;
             gc_fs := if go then remove_files rm_files fs else fs |}
  end.

(** Three files, oldest first, and a directory that holds them. *)
Definition example_files : list (@hfile Q) :=
  [(1%Q, 5, "xonsh-a.json", 50); (2%Q, 3, "xonsh-b.json", 30);
   (3%Q, 4, "xonsh-c.json", 100)].

Definition example_fs : gmap string Hist.file :=
  {[ "xonsh-a.json" := Hist.Doc [] ∅; "xonsh-b.json" := Hist.Doc [] ∅;
     "xonsh-c.json" := Hist.Doc [] ∅ ]}.

End GCRun.

(** ** Appending to the session *)

Module Session.
Import Hist.
Local Open Scope py_scope.

(** Truth value of a Python object, as [and] and [if] take it. *)
Definition py_truthy (v : value) : bool :=
  match v with
  | VNone => false
  | VBool b => b
  | VInt z => negb (z =? 0)
  | VFloat q => negb (Qeq_bool q 0)
  | VStr s => negb (String.eqb s "")
  | VList l => match l with [] => false | _ :: _ => true end
  end.

Definition set_len (n : Z) (h : JsonHistory) : JsonHistory :=
  {| filename := filename h; buffer := buffer h; _queue := _queue h;
     _len := n; _skipped := _skipped h;
     remember_history := remember_history h;
     last_pull_times := last_pull_times h; tss := tss h; inps := inps h;
     outs := outs h; rtns := rtns h; cwds := cwds h |}.

(** The record as the buffer holds it once [append] is done with it: the
    dict appended is the caller's, and [append] then deletes ["cwd"] from
    it (unless the working directory is to be saved) and ["spc"]. *)
Definition stored (save_cwd : bool) (c : cmd) : cmd :=
  base.delete "spc" (if save_cwd then c else base.delete "cwd" c).

(** [JsonHistory.append].  [is_ignored] is the predicate of the base
    class [History]; [save_cwd] and [buffersize] are attributes of the
    object fixed at construction. *)
Definition append (is_ignored : cmd -> bool) (save_cwd : bool)
    (buffersize : Z) (c : cmd) : M (option JsonHistoryFlusher) :=
  w <- get ;;
  if negb (remember_history (hist w)) || is_ignored c then ret None
  else
    let skipped_by_ignore_space :=
      bool_decide ("ignorespace" ∈ HISTCONTROL w)
      && py_truthy (dict_get c "spc" VNone) in
    if skipped_by_ignore_space then ret None
    else
      modify (with_hist (fun h =>
        set_len (_len h + 1) (set_buffer (buffer h ++ [stored save_cwd c]) h)))
      ;;;
      w <- get ;;
      if buffersize <=? Z.of_nat (length (buffer (hist w))) then flush false
      else ret None.

(** The three reasons for which [append] records nothing. *)
Definition not_recorded (is_ignored : cmd -> bool) (c : cmd) (w : world)
  : Prop :=
  remember_history (hist w) = false \/
  is_ignored c = true \/
  ("ignorespace" ∈ HISTCONTROL w /\
   py_truthy (dict_get c "spc" VNone) = true).

(** The session invariant: history is on, nothing waits on the file,
    the file is readable, and the logical length is the number of
    commands in the file plus the number in the buffer. *)
Definition consistent (w : world) (old : list cmd)
    (meta : gmap string value) : Prop :=
  remember_history (hist w) = true /\
  _queue (hist w) = [] /\
  fs w !! filename (hist w) = Some (Doc old meta) /\
  _len (hist w) - _skipped (hist w)
  = Z.of_nat (length old) + Z.of_nat (length (buffer (hist w))).

(** The field of each command, as a read returns it. *)
Definition field_values (self : JsonCommandField) (cmds : list cmd)
  : list value :=
  (fun c => dict_get c (field self) (default self)) <$> cmds.

(** The world after [k] calls of the flusher's [skip(1)]. *)
Definition skipped_by (k : Z) (w : world) : world :=
  with_hist (set_skipped (_skipped (hist w) + k)) w.

(** No command of [l] has the input of the command before it, the one
    before the first having input [last]. *)
Fixpoint no_repeat_after (last : value) (l : list cmd) : Prop :=
  match l with
  | [] => True
  | c :: rest =>
      exists inp, c !! "inp" = Some inp /\ py_eq inp last = false /\
                  no_repeat_after inp rest
  end.

(** The command's exit status is (Python-)equal to 0. *)
Definition succeeded (c : cmd) : Prop :=
  exists rtn, c !! "rtn" = Some rtn /\ py_eq rtn (VInt 0) = true.

(** A record that [delete] must leave alone: its input does not match
    (or cannot be matched at all). *)
Definition unmatched (pmatch : string -> bool) (c : cmd) : bool :=
  match match_inp pmatch c with
  | inr true => false
  | _ => true
  end.

(** [l'] is [l] with some matching records taken out: every record of
    [l'] is one of [l], in the same order, and no unmatched record is
    missing. *)
Definition pruned_list (pmatch : string -> bool) (l l' : list cmd) : Prop :=
  l' `sublist_of` l /\
  List.filter (unmatched pmatch) l' = List.filter (unmatched pmatch) l.

(** The same for what a path holds: a missing or unreadable file stays as
    it is, a document keeps its metadata. *)
Definition pruned_file (pmatch : string -> bool) (f f' : option file)
  : Prop :=
  match f, f' with
  | None, None => True
  | Some Corrupt, Some Corrupt => True
  | Some (Doc c m), Some (Doc c' m') => m' = m /\ pruned_list pmatch c c'
  | _, _ => False
  end.

Definition pruned_files (pmatch : string -> bool) (w w' : world) : Prop :=
  hist w' = hist w /\
  forall path, pruned_file pmatch (fs w !! path) (fs w' !! path).

(** [a] may come before [b] in a list sorted by [keyf] ([rev] for
    [reverse=True]). *)
Definition ordered {A} (keyf : A -> Q) (rev : bool) (a b : A) : Prop :=
  if rev then (keyf b <= keyf a)%Q else (keyf a <= keyf b)%Q.

(** The path [_xhj_pull_items] takes for the current session's file. *)
Definition current_session_path (w : world) : string :=
  match XONSH_HISTORY_FILE w with Some p => p | None => "" end.

(** The cursor a pull applies to the file at [path]: the one kept for its
    session, or the one for all sessions. *)
Definition cursor_of (pull_times : gmap (option string) Q) (t0 : Q)
    (path : string) : Q :=
  match pull_times !! Some (strip_prefix_suffix (basename_from path "")) with
  | Some t => t
  | None => t0
  end.

(** [p] pairs a command of the readable file at [path], which is not the
    current session's, with its end time, and that is after the cursor. *)
Definition pulled_from (pull_times : gmap (option string) Q) (t0 : Q)
    (cur : string) (w : world) (path : string) (p : Q * cmd) : Prop :=
  path <> cur /\
  exists cmds meta,
    fs w !! path = Some (Doc cmds meta) /\ p.2 ∈ cmds /\
    (ts_end p.2 w).1 = Ret p.1 /\
    Qle_bool p.1 (cursor_of pull_times t0 path) = false.

(** [l[start:stop]] on a Python list. *)
Definition py_slice {A} (start stop : option Z) (l : list A) : list A :=
  let len := Z.of_nat (length l) in
  let clamp (i : Z) := if i <? 0 then Z.max (i + len) 0 else Z.min i len in
  let a := match start with None => 0 | Some i => clamp i end in
  let b := match stop with None => len | Some i => clamp i end in
  take (Z.to_nat (b - a)) (drop (Z.to_nat a) l).

End Session.

(** ** More sessions for the examples *)

Module SessionExamples.
Import Hist Examples Session.

(** Two commands in the file and one in the buffer. *)
Definition two_on_disk_one_buffered : world :=
  session {[ session_file :=
               Doc [entry "ls" "a.txt"; entry "pwd" "/"] session_meta ]}
    [entry "make" "ok"] 3 {[ None := 50%Q ]} (Some []).

(** One buffered command and no session file at all. *)
Definition buffered_no_file : world :=
  session ∅ [entry "ls" "a.txt"] 1 {[ None := 50%Q ]} (Some []).

(** The flusher of a flush at exit of [buffered_one]. *)
Definition exit_flusher : JsonHistoryFlusher :=
  {| hf_id := 5; hf_filename := session_file;
     hf_buffer := [entry "ls" "a.txt"]; hf_at_exit := true;
     hf_skip := true |}.

(** The flusher of a background flush of [dups_buffered]. *)
Definition dups_flusher : JsonHistoryFlusher :=
  {| hf_id := 5; hf_filename := session_file;
     hf_buffer := [entry "ls" ""; entry "ls" ""; entry "pwd" ""];
     hf_at_exit := false; hf_skip := true |}.

(** A command typed with a leading space, as the shell hands it over. *)
Definition spaced_entry : cmd :=
  <["spc" := VBool true]> (<["cwd" := VStr "/home"]> (entry "git log" "")).

(** The base class's [is_ignored] when no ignore pattern is set. *)
Definition ignore_nothing (c : cmd) : bool := false.

End SessionExamples.


(** * Properties *)

Module PyFacts.

Lemma slice_to_prefix {A} (stop : Z) (l : list A) :
  Py.slice_to stop l `prefix_of` l.
Proof. unfold Py.slice_to. destruct (stop <? 0); apply prefix_take. Qed.

Lemma slice_to_0 {A} (l : list A) : Py.slice_to (- 0) l = [].
Proof. unfold Py.slice_to. simpl. by rewrite Z.min_l by lia. Qed.

Lemma slice_to_neg {A} (n : nat) (l : list A) :
  (0 < n)%nat -> Py.slice_to (- Z.of_nat n) l = take (length l - n) l.
Proof.
  intros Hn. unfold Py.slice_to.
  destruct (Z.ltb_spec (- Z.of_nat n) 0) as [_|Hge]; [|lia].
  f_equal. lia.
Qed.

End PyFacts.

Module GCFacts.
Import GC.

Section PolicyFacts.

Context {time : Type}.
Variable time_sub : time -> time -> time.
Variable time_ltb : time -> time -> bool.
Variable time_zero : time.

Local Abbreviation hfile := (@hfile time).

Lemma prefix_is_oldest (files rm : list hfile) :
  rm `prefix_of` files -> oldest_prefix files rm.
Proof.
  intros [k ->]. unfold oldest_prefix, kept.
  rewrite drop_app_length.
  split; [by apply prefix_app_r | split; [by apply suffix_app_r | done]].
Qed.

Lemma commands_fit_over (hsize : Z) (newest : hfile) (rest : list hfile) :
  hsize < ncmds_of newest ->
  commands_fit hsize (newest :: rest) 0 0 = 0%nat.
Proof.
  destruct newest as [[[ts c] p] sz]; simpl; intros H.
  rewrite (proj2 (Z.ltb_lt hsize (0 + c))) by lia. done.
Qed.

Lemma bytes_fit_over (hsize : Z) (newest : hfile) (rest : list hfile) :
  hsize < fsize_of newest ->
  bytes_fit hsize (newest :: rest) 0 0 = 0%nat.
Proof.
  destruct newest as [[[ts c] p] sz]; simpl; intros H.
  rewrite (proj2 (Z.ltb_lt hsize (0 + sz))) by lia. done.
Qed.

(** C6: when the newest (last) file alone exceeds the limit, the
    command-count policy and the byte-size policy both return no file to
    remove and an amount over the limit of zero. *)
Theorem newest_alone_over_limit_removes_nothing
    (hsize : Z) (files : list hfile) (newest : hfile) :
  last files = Some newest ->
  (hsize < ncmds_of newest ->
   _xhj_gc_commands_to_rmfiles hsize files = (0, [])) /\
  (hsize < fsize_of newest ->
   _xhj_gc_bytes_to_rmfiles hsize files = (0, [])).
Proof.
  intros Hlast.
  apply last_Some in Hlast as [older ->].
  split; intros Hover.
  - unfold _xhj_gc_commands_to_rmfiles.
    rewrite reverse_snoc, commands_fit_over by done.
    change (- Z.of_nat 0) with (- 0). by rewrite PyFacts.slice_to_0.
  - unfold _xhj_gc_bytes_to_rmfiles.
    rewrite reverse_snoc, bytes_fit_over by done.
    change (- Z.of_nat 0) with (- 0). by rewrite PyFacts.slice_to_0.
Qed.

(** C8: for each of the four policies the files to remove are a prefix
    of the oldest-first input list, and the kept files are the remaining
    suffix. *)
Theorem rmfiles_oldest_prefix
    (hsize : Z) (now hsecs : time) (files : list hfile) :
  oldest_prefix files (_xhj_gc_commands_to_rmfiles hsize files).2 /\
  oldest_prefix files (_xhj_gc_files_to_rmfiles hsize files).2 /\
  oldest_prefix files
    (_xhj_gc_seconds_to_rmfiles time_sub time_ltb time_zero now hsecs
       files).2 /\
  oldest_prefix files (_xhj_gc_bytes_to_rmfiles hsize files).2.
Proof.
  repeat split_and; apply prefix_is_oldest; simpl.
  - apply PyFacts.slice_to_prefix.
  - case_match; [apply PyFacts.slice_to_prefix | apply prefix_nil].
  - apply PyFacts.slice_to_prefix.
  - apply PyFacts.slice_to_prefix.
Qed.

(** The age loop counts at most the files it was given, so when it
    counted any the slice [files[:n]] has a first element. *)
Lemma seconds_expired_bound (now hsecs : time) (files : list hfile) :
  forall n : nat,
    (n <= seconds_expired time_sub time_ltb now hsecs files n
       <= n + length files)%nat.
Proof.
  induction files as [|[[[ts c] p] sz] rest IH]; intros n; simpl; [lia|].
  destruct (time_ltb (time_sub now ts) hsecs); [lia|].
  specialize (IH (S n)). lia.
Qed.

Lemma seconds_rmfiles_length (now hsecs : time) (files : list hfile) :
  length (_xhj_gc_seconds_to_rmfiles time_sub time_ltb time_zero now hsecs
            files).2
  = seconds_expired time_sub time_ltb now hsecs files 0.
Proof.
  pose proof (seconds_expired_bound now hsecs files 0).
  simpl. unfold Py.slice_to.
  destruct (Z.ltb_spec
              (Z.of_nat (seconds_expired time_sub time_ltb now hsecs files 0))
              0); [lia|].
  rewrite length_take. lia.
Qed.

(** The file-count policy with a positive limit keeps the newest
    [min hsize N] files. *)
Lemma files_policy_positive (hsize : Z) (files : list hfile) :
  0 < hsize ->
  let '(over, rm) := _xhj_gc_files_to_rmfiles hsize files in
  let n := Z.of_nat (length files) in
  Z.of_nat (length (kept files rm)) = Z.min hsize n /\
  Z.of_nat (length rm) = n - Z.min hsize n /\
  over = Z.of_nat (length rm) /\
  rm = take (length rm) files.
Proof.
  intros Hpos. unfold _xhj_gc_files_to_rmfiles, kept.
  destruct (Z.ltb_spec hsize (Z.of_nat (length files))) as [Hlt|Hge].
  - unfold Py.slice_to.
    destruct (Z.ltb_spec (- hsize) 0); [|lia].
    rewrite length_drop, !length_take.
    repeat split; try lia.
    f_equal. lia.
  - simpl. rewrite drop_0. repeat split; lia.
Qed.

End PolicyFacts.

(** C7: with a limit of zero the file-count policy marks no file for
  removal, although one file is over the limit: [files[:-0]] is
  [files[:0]]. *)
Theorem files_policy_zero_limit_removes_nothing :
_xhj_gc_files_to_rmfiles 0 [(10%Q, 3, "xonsh-a.json", 120)]
= (0, []).
Proof. reflexivity. Qed.

Lemma newest_alone_over_limit_witness :
  let files := [(1%Q, 5, "xonsh-a.json", 50); (2%Q, 3, "xonsh-b.json", 30);
                (3%Q, 10, "xonsh-c.json", 100)] in
  last files = Some (3%Q, 10, "xonsh-c.json", 100) /\
  8 < 10 /\ 80 < 100 /\
  _xhj_gc_commands_to_rmfiles 8 files = (0, []) /\
  _xhj_gc_bytes_to_rmfiles 80 files = (0, []).
Proof.
  intros files.
  pose proof (newest_alone_over_limit_removes_nothing 8 files
                (3%Q, 10, "xonsh-c.json", 100) eq_refl) as [Hc _].
  pose proof (newest_alone_over_limit_removes_nothing 80 files
                (3%Q, 10, "xonsh-c.json", 100) eq_refl) as [_ Hb].
  split_and!; [reflexivity | lia | lia | apply Hc | apply Hb]; simpl; lia.
Defined.

End GCFacts.

Module HistFacts.
Import Hist Examples.
Local Open Scope py_scope.

(** *** Reading with history disabled *)

(** C10: with [remember_history] false, [__getitem__] returns the empty
    string for every key, whatever the state, and leaves the state (and
    so the files and the queue) untouched. *)
Theorem getitem_disabled (self : JsonCommandField) (k : key) (w : world) :
  remember_history (hist w) = false ->
  getitem self k w = (Ret (VStr ""), w).
Proof.
  intros Hoff. unfold getitem, bind, get. by rewrite Hoff.
Qed.

Lemma getitem_disabled_witness :
  remember_history (hist disabled) = false /\
  getitem (accessor 1 "inp") (KVal (VStr "x")) disabled
  = (Ret (VStr ""), disabled).
Proof. split; [reflexivity | apply getitem_disabled; reflexivity]. Defined.

(** *** Errors of the field accessor *)

Lemma hist_len_ok (w : world) :
  0 <= _len (hist w) - _skipped (hist w) ->
  hist_len w = (Ret (_len (hist w) - _skipped (hist w)), w).
Proof.
  intros H. unfold hist_len.
  by destruct (Z.ltb_spec (_len (hist w) - _skipped (hist w)) 0); [lia|].
Qed.

(** C3 as the code has it: with history enabled and a non-negative
    logical length, a key that is neither an [int] nor a slice raises
    [IndexError] (the code has no separate type-error class; the message
    names the restriction), and an [int] key on an empty history raises
    [IndexError] too; no value is returned and the state is unchanged. *)
Theorem getitem_errors (self : JsonCommandField) (w : world) :
  remember_history (hist w) = true ->
  (forall v : value,
      0 <= _len (hist w) - _skipped (hist w) ->
      as_int v = None ->
      getitem self (KVal v) w =
        (Raise (IndexError
                  "JsonCommandField may only be indexed by int or slice."),
         w)) /\
  (forall v : value,
      _len (hist w) - _skipped (hist w) = 0 ->
      is_Some (as_int v) ->
      getitem self (KVal v) w =
        (Raise (IndexError "JsonCommandField is empty."), w)).
Proof.
  intros Hon. split.
  - intros v Hlen Hv. unfold getitem, bind, get. rewrite Hon. simpl.
    rewrite hist_len_ok by done. by rewrite Hv.
  - intros v Hlen [z Hz]. unfold getitem, bind, get. rewrite Hon. simpl.
    rewrite hist_len_ok by lia. rewrite Hz.
    unfold getitem_int, bind, get. rewrite Hon. simpl.
    rewrite hist_len_ok by lia. by rewrite Hlen.
Qed.

Lemma getitem_errors_witness :
  getitem (accessor 1 "inp") (KVal (VStr "x")) flushed_one =
    (Raise (IndexError
              "JsonCommandField may only be indexed by int or slice."),
     flushed_one) /\
  getitem (accessor 1 "inp") (KVal (VInt 0)) empty_session =
    (Raise (IndexError "JsonCommandField is empty."), empty_session).
Proof.
  split.
  - apply (getitem_errors (accessor 1 "inp") flushed_one eq_refl);
      [simpl; lia | reflexivity].
  - apply (getitem_errors (accessor 1 "inp") empty_session eq_refl);
      [reflexivity | by exists 0].
Defined.

(** C3 as stated fails: a string key on an enabled history does not
    fail with a type error, the exception raised is [IndexError]. *)
Lemma getitem_str_key_not_type_error :
  (getitem (accessor 1 "inp") (KVal (VStr "x")) flushed_one).1
  <> Raise TypeError.
Proof. vm_compute. discriminate. Qed.

(** With more commands skipped than appended, [len()] itself fails and
    every read of an enabled history raises [ValueError]. *)
Lemma getitem_negative_length (self : JsonCommandField) (k : key)
    (w : world) :
  remember_history (hist w) = true ->
  _len (hist w) - _skipped (hist w) < 0 ->
  getitem self k w = (Raise ValueError, w).
Proof.
  intros Hon Hneg. unfold getitem, bind, get. rewrite Hon. simpl.
  unfold hist_len.
  by destruct (Z.ltb_spec (_len (hist w) - _skipped (hist w)) 0); [|lia].
Qed.

(** *** clear *)

(** What [clear] does, for any session: memory is reset, and since
    [flush] returns at once on an empty buffer no file is written. *)
Lemma clear_spec (w : world) :
  exists w',
    clear w = (Ret tt, w') /\
    buffer (hist w') = [] /\
    _len (hist w') = 0 /\ _skipped (hist w') = 0 /\
    jcf_id (tss (hist w')) = next_id w /\
    filename (hist w') = filename (hist w) /\
    _queue (hist w') = _queue (hist w) /\
    fs w' = fs w.
Proof. eexists. split; [reflexivity | done]. Qed.

(** C2: the code at a session whose file holds one flushed command:
    after [clear] the file still holds that command. *)
Theorem clear_leaves_flushed_commands_on_disk :
  exists w',
    clear flushed_one = (Ret tt, w') /\
    buffer (hist w') = [] /\ _len (hist w') = 0 /\
    _skipped (hist w') = 0 /\
    fs w' !! session_file = Some (Doc [entry "ls" "a.txt"] session_meta).
Proof. eexists. split; [reflexivity | by vm_compute]. Qed.

(** *** delete *)

(** C4: the code at a buffer of two adjacent matching commands and a
    file of two adjacent matching commands: deleting index [i] while
    the iterator moves on to [i + 1] skips the neighbour, so one command
    of each pair survives and 2 is returned where 4 records match. *)
Theorem delete_skips_adjacent_match :
  exists w',
    delete starts_with_rm two_and_two = (Ret 2, w') /\
    buffer (hist w') = [entry "rm d" ""] /\
    fs w' !! session_file = Some (Doc [entry "rm b" ""] session_meta).
Proof. eexists. split; [reflexivity | by vm_compute]. Qed.

(** The iterator index grows by one each turn, so the loop never stops
    for want of fuel: any two amounts that cover the rest of the list give
    the same result. *)
Lemma delete_scan_fuel (pmatch : string -> bool) :
  forall (fuel fuel' i : nat) (l : list cmd) (deleted : Z),
    (length l <= i + fuel)%nat -> (length l <= i + fuel')%nat ->
    delete_scan pmatch fuel i l deleted
    = delete_scan pmatch fuel' i l deleted.
Proof.
  induction fuel as [|fuel IH]; intros [|fuel'] i l deleted H1 H2; simpl;
    try done.
  - by rewrite lookup_ge_None_2 by lia.
  - by rewrite lookup_ge_None_2 by lia.
  - destruct (l !! i) as [c|] eqn:Hc; [|done].
    pose proof (lookup_lt_Some _ _ _ Hc).
    destruct (match_inp pmatch c) as [e|[|]]; [done| |].
    + apply IH; rewrite length_delete by eauto; lia.
    + apply IH; lia.
Qed.

(** The count grows by exactly the number of records the loop removed. *)
Lemma delete_scan_length (pmatch : string -> bool) :
  forall (fuel i : nat) (l : list cmd) (deleted : Z),
    let '(l', deleted', _) := delete_scan pmatch fuel i l deleted in
    Z.of_nat (length l) - Z.of_nat (length l') = deleted' - deleted.
Proof.
  induction fuel as [|fuel IH]; intros i l deleted; simpl; [lia|].
  destruct (l !! i) as [c|] eqn:Hc; [|lia].
  pose proof (lookup_lt_Some _ _ _ Hc).
  destruct (match_inp pmatch c) as [e|[|]]; [lia| |].
  - specialize (IH (S i) (base.delete i l) (deleted + 1)).
    destruct (delete_scan pmatch fuel (S i) (base.delete i l) (deleted + 1))
      as [[l' d'] e].
    rewrite length_delete in IH by eauto. lia.
  - apply IH.
Qed.

(** *** The queue across an operation *)

Lemma skip_frame (hf : JsonHistoryFlusher) (n : Z) (w : world) :
  exists w', skip hf n w = (Ret tt, w') /\
    _queue (hist w') = _queue (hist w) /\ fs w' = fs w /\
    HISTCONTROL w' = HISTCONTROL w /\
    XONSH_STORE_STDOUT w' = XONSH_STORE_STDOUT w.
Proof. unfold skip. destruct (hf_skip hf); by eexists. Qed.

Lemma dump_select_frame (hf : JsonHistoryFlusher) (opts : gset string)
    (buf : list cmd) :
  forall (last_inp : value) (cmds : list cmd) (w : world) o w',
    dump_select hf opts buf last_inp cmds w = (o, w') ->
    _queue (hist w') = _queue (hist w) /\ fs w' = fs w /\
    HISTCONTROL w' = HISTCONTROL w /\
    XONSH_STORE_STDOUT w' = XONSH_STORE_STDOUT w.
Proof.
  induction buf as [|c rest IH]; intros last_inp cmds w o w' H.
  - by inversion H.
  - simpl in H. unfold bind, dict_getitem in H.
    destruct (bool_decide ("ignoredups" ∈ opts)).
    + destruct (c !! "inp") as [inp|]; [|by inversion H].
      simpl in H. destruct (py_eq inp last_inp).
      * destruct (skip_frame hf 1 w) as (w1 & -> & Hq & Hf & Ho & Hs) in H.
        apply IH in H. destruct H as (-> & -> & -> & ->). done.
      * destruct (bool_decide ("ignoreerr" ∈ opts)).
        -- destruct (c !! "rtn") as [rtn|]; [|by inversion H].
           simpl in H. destruct (negb (py_eq rtn (VInt 0))).
           ++ destruct (skip_frame hf 1 w) as (w1 & -> & Hq & Hf & Ho & Hs)
                in H.
              apply IH in H. destruct H as (-> & -> & -> & ->). done.
           ++ simpl in H. by apply IH in H.
        -- simpl in H. by apply IH in H.
    + simpl in H. destruct (bool_decide ("ignoreerr" ∈ opts)).
      * destruct (c !! "rtn") as [rtn|]; [|by inversion H].
        simpl in H. destruct (negb (py_eq rtn (VInt 0))).
        -- destruct (skip_frame hf 1 w) as (w1 & -> & Hq & Hf & Ho & Hs)
             in H.
           apply IH in H. destruct H as (-> & -> & -> & ->). done.
        -- destruct (c !! "inp") as [inp|]; [|by inversion H].
           simpl in H. by apply IH in H.
      * simpl in H. destruct (c !! "inp") as [inp|]; [|by inversion H].
        simpl in H. by apply IH in H.
Qed.

Lemma set_ts_end_pure (now : Q) (ts : value) (w : world) o w' :
  set_ts_end now ts w = (o, w') -> w' = w.
Proof.
  unfold set_ts_end. destruct ts; try (by inversion 1).
  destruct (1 <? length l)%nat; by inversion 1.
Qed.

(** [dump] never touches the queue, however it ends. *)
Lemma dump_queue (hf : JsonHistoryFlusher) (w : world) o w' :
  dump hf w = (o, w') -> _queue (hist w') = _queue (hist w).
Proof.
  unfold dump, bind, get. simpl.
  destruct (dump_select hf (HISTCONTROL w) (hf_buffer hf) VNone [] w)
    as [o1 w1] eqn:Hsel.
  apply dump_select_frame in Hsel as (Hq & Hf & _).
  destruct o1 as [cmds|e|]; [|by inversion 1; subst..].
  unfold read_doc. destruct (fs w1 !! hf_filename hf) as [[|old meta]|];
    [by inversion 1; subst| |by inversion 1; subst].
  destruct (hf_at_exit hf); simpl.
  - destruct (meta !! "ts") as [ts|]; simpl.
      destruct (set_ts_end (clock w1) ts w1) as [o2 w2] eqn:Hts.
      apply set_ts_end_pure in Hts as ->.
      destruct o2; inversion 1; subst; done.
    + inversion 1; subst; done.
  - inversion 1; subst; done.
Qed.

Lemma getitem_int_queue (self : JsonCommandField) (k : Z) (w : world) v w' :
  getitem_int self k w = (Ret v, w') ->
  _queue (hist w') ≡ₚ _queue (hist w).
Proof.
  unfold getitem_int, bind, get, ret, raise. simpl.
  destruct (remember_history (hist w)); simpl; [|by inversion 1].
  unfold hist_len.
  destruct (_len (hist w) - _skipped (hist w) <? 0); [by inversion 1|].
  destruct (_len (hist w) - _skipped (hist w) =? 0); [by inversion 1|].
  set (size := _len (hist w) - _skipped (hist w)).
  set (k' := if k <? 0 then size + k else k).
  destruct (size - Z.of_nat (length (buffer (hist w))) <=? k').
  - destruct (buffer (hist w) !! _); by inversion 1.
  - unfold wait_for_front, read_doc, queue_popleft. simpl.
    destruct (_queue (hist w) ++ [jcf_id self]) as [|x q] eqn:Hq;
      [by inversion 1|].
    destruct (Nat.eqb_spec x (jcf_id self)) as [->|]; [|by inversion 1].
    simpl.
    destruct (fs w !! filename (hist w)) as [[|old meta]|];
      [by inversion 1| |by inversion 1].
    simpl. unfold lj_cmds_getitem, ret, raise.
    destruct ((0 <=? k') && (k' <? Z.of_nat (length old)));
      [|by inversion 1].
    destruct (old !! Z.to_nat k'); [|by inversion 1].
    simpl. rewrite Hq. inversion 1; subst; simpl.
    apply (Permutation_cons_inv (a := jcf_id self)).
    rewrite <- Hq. by rewrite Permutation_app_comm.
Qed.

Lemma mapM_getitem_int_queue (self : JsonCommandField) (ks : list Z) :
  forall (w : world) vs w',
    mapM (getitem_int self) ks w = (Ret vs, w') ->
    _queue (hist w') ≡ₚ _queue (hist w).
Proof.
  induction ks as [|k ks IH]; intros w vs w'; simpl.
  - by inversion 1.
  - unfold bind.
    destruct (getitem_int self k w) as [[v| |] w1] eqn:H1;
      [|by inversion 1..].
    destruct (mapM (getitem_int self) ks w1) as [[vs'| |] w2] eqn:H2;
      [|by inversion 1..].
    inversion 1; subst.
    apply IH in H2. apply getitem_int_queue in H1. by etrans.
Qed.

Lemma getitem_queue (self : JsonCommandField) (k : key) (w : world) v w' :
  getitem self k w = (Ret v, w') ->
  _queue (hist w') ≡ₚ _queue (hist w).
Proof.
  unfold getitem, bind, get. simpl.
  destruct (remember_history (hist w)); simpl; [|by inversion 1].
  unfold hist_len.
  destruct (_len (hist w) - _skipped (hist w) <? 0); [by inversion 1|].
  destruct k as [a b st|x].
  - destruct (slice_indices a b st _ w) as [[[[i j] t]| |] w1] eqn:Hs;
      [|by inversion 1..].
    assert (w1 = w) as ->.
    { unfold slice_indices in Hs.
      destruct (_ =? 0) in Hs; by inversion Hs. }
    destruct (mapM (getitem_int self) (Py.range i j t) w)
      as [[vs| |] w2] eqn:Hm; [|by inversion 1..].
    inversion 1; subst. by eapply mapM_getitem_int_queue.
  - destruct (as_int x); [|by inversion 1].
    apply getitem_int_queue.
Qed.

Lemma run_queue (hf : JsonHistoryFlusher) (w : world) w' :
  run hf w = (Ret tt, w') ->
  _queue (hist w) = hf_id hf :: _queue (hist w').
Proof.
  unfold run, bind, wait_for_front.
  destruct (_queue (hist w)) as [|x q] eqn:Hq; [by inversion 1|].
  destruct (Nat.eqb_spec x (hf_id hf)) as [->|]; [|by inversion 1].
  destruct (dump hf w) as [[[]| |] w1] eqn:Hd; [|by inversion 1..].
  apply dump_queue in Hd. unfold queue_popleft. rewrite Hd, Hq.
  by inversion 1.
Qed.

Lemma init_at_exit_queue (fname : string) (buf : list cmd) (sk : bool)
    (w : world) hf w' :
  JsonHistoryFlusher_init fname buf true sk w = (Ret hf, w') ->
  _queue (hist w') = tail (_queue (hist w) ++ [hf_id hf]).
Proof.
  unfold JsonHistoryFlusher_init, bind, fresh, queue_append, modify. simpl.
  match goal with |- context [dump ?h ?w0] =>
    destruct (dump h w0) as [[[]| |] w1] eqn:Hd end; [|by inversion 1..].
  apply dump_queue in Hd. simpl in Hd.
  unfold queue_popleft. rewrite Hd.
  destruct (_queue (hist w) ++ [next_id w]) as [|x q] eqn:Hq;
    [by inversion 1|].
  inversion 1; subst; simpl. by rewrite Hq.
Qed.

(** C1 as the code has it: an operation that enqueued itself is dequeued
    when its file I/O completes without raising.  A Field Accessor read
    that returns leaves the queue holding what it held; a flusher thread
    that returns was at the front and is gone from it; a flush at exit
    that returns on an otherwise idle queue leaves the queue empty. *)
Theorem dequeued_when_io_succeeds :
  (forall (self : JsonCommandField) (k : key) (w : world) v w',
      getitem self k w = (Ret v, w') ->
      _queue (hist w') ≡ₚ _queue (hist w)) /\
  (forall (hf : JsonHistoryFlusher) (w : world) w',
      run hf w = (Ret tt, w') ->
      _queue (hist w) = hf_id hf :: _queue (hist w')) /\
  (forall (fname : string) (buf : list cmd) (sk : bool) (w : world) hf w',
      JsonHistoryFlusher_init fname buf true sk w = (Ret hf, w') ->
      _queue (hist w) = [] ->
      _queue (hist w') = []).
Proof.
  split_and!.
  - apply getitem_queue.
  - apply run_queue.
  - intros fname buf sk w hf w' H Hq.
    apply init_at_exit_queue in H. by rewrite H, Hq.
Qed.

Lemma dequeued_when_io_succeeds_witness :
  _queue (hist (getitem (accessor 1 "inp") (KVal (VInt 0)) flushed_one).2)
    ≡ₚ [] /\
  _queue (hist pending_flush)
    = 5%nat :: _queue (hist (run pending_flusher pending_flush).2) /\
  _queue (hist (JsonHistoryFlusher_init session_file [entry "ls" "a.txt"]
                  true true buffered_one).2) = [].
Proof.
  destruct dequeued_when_io_succeeds as (Hread & Hrun & Hexit).
  split_and!.
  - apply (Hread (accessor 1 "inp") (KVal (VInt 0)) flushed_one
             (VStr "ls")).
    reflexivity.
  - apply (Hrun pending_flusher pending_flush). reflexivity.
  - apply (Hexit session_file [entry "ls" "a.txt"] true buffered_one
             {| hf_id := 5; hf_filename := session_file;
                hf_buffer := [entry "ls" "a.txt"]; hf_at_exit := true;
                hf_skip := true |});
      reflexivity.
Defined.

(** C1 as stated fails: when the session file cannot be opened, the
    read raises after it enqueued itself and is never dequeued; the next
    reader that has to go to the file then waits for ever. *)
Lemma failed_read_stays_enqueued :
  let r := getitem (accessor 1 "inp") (KVal (VInt 0)) file_missing in
  r.1 = Raise OSError /\
  _queue (hist r.2) = [1%nat] /\
  (getitem (accessor 0 "ts") (KVal (VInt 0)) r.2).1 = Blocked.
Proof. by vm_compute. Qed.

(** *** Reading across a flush *)

(** The commands [dump] appends to the file for a selection [cmds]. *)
Lemma dict_get_delete_ne (c : cmd) (k fld : string) (dflt : value) :
  fld <> k -> dict_get (base.delete k c) fld dflt = dict_get c fld dflt.
Proof. intros Hne. unfold dict_get. by rewrite lookup_delete_ne. Qed.

(** Without ["ignoredups"] and ["ignoreerr"], and with every command
    carrying an ["inp"], the selection keeps the whole buffer. *)
Lemma dump_select_no_filter (hf : JsonHistoryFlusher) (opts : gset string)
    (buf : list cmd) :
  "ignoredups" ∉ opts -> "ignoreerr" ∉ opts ->
  Forall (fun c : cmd => is_Some (c !! "inp")) buf ->
  forall (last_inp : value) (cmds : list cmd) (w : world),
    dump_select hf opts buf last_inp cmds w = (Ret (cmds ++ buf), w).
Proof.
  intros Hd He. induction 1 as [|c rest [inp Hinp] _ IH];
    intros last_inp cmds w; simpl.
  - by rewrite app_nil_r.
  - rewrite !bool_decide_eq_false_2 by done.
    unfold bind, dict_getitem, ret. rewrite Hinp. simpl.
    rewrite IH. by rewrite <- app_assoc.
Qed.

(** A read at a valid index of an idle session returns the field of the
    entry at that index of "file commands, then buffer". *)
Lemma getitem_logical (self : JsonCommandField) (w : world)
    (old : list cmd) (meta : gmap string value) (i : nat) (c : cmd) :
  remember_history (hist w) = true ->
  _queue (hist w) = [] ->
  fs w !! filename (hist w) = Some (Doc old meta) ->
  _len (hist w) - _skipped (hist w)
  = Z.of_nat (length old) + Z.of_nat (length (buffer (hist w))) ->
  (old ++ buffer (hist w)) !! i = Some c ->
  (getitem self (KVal (VInt (Z.of_nat i))) w).1
  = Ret (dict_get c (field self) (default self)).
Proof.
  intros Hon Hq Hfs Hlen Hi.
  pose proof (lookup_lt_Some _ _ _ Hi) as Hlt. rewrite length_app in Hlt.
  unfold getitem, bind, get. simpl. rewrite Hon. simpl.
  rewrite hist_len_ok by lia. simpl.
  unfold getitem_int, bind, get. simpl. rewrite Hon. simpl.
  rewrite hist_len_ok by lia. rewrite Hlen.
  destruct (Z.eqb_spec (Z.of_nat (length old)
                        + Z.of_nat (length (buffer (hist w)))) 0); [lia|].
  destruct (Z.ltb_spec (Z.of_nat i) 0); [lia|].
  destruct (Z.leb_spec
              (Z.of_nat (length old) + Z.of_nat (length (buffer (hist w)))
               - Z.of_nat (length (buffer (hist w)))) (Z.of_nat i))
    as [Hbuf|Hfile].
  - rewrite lookup_app_r in Hi by lia.
    replace (Z.to_nat _) with (i - length old)%nat by lia.
    by rewrite Hi.
  - rewrite lookup_app_l in Hi by lia.
    unfold wait_for_front, read_doc, queue_popleft, lj_cmds_getitem. simpl.
    rewrite Hq. simpl. rewrite Nat.eqb_refl. simpl. rewrite Hfs. simpl.
    destruct (Z.leb_spec 0 (Z.of_nat i)); [|lia].
    destruct (Z.ltb_spec (Z.of_nat i) (Z.of_nat (length old))); [|lia].
    simpl. rewrite Nat2Z.id, Hi. simpl. by rewrite Hq.
Qed.

Lemma flush_nonempty (at_exit : bool) (w : world) :
  buffer (hist w) <> [] ->
  flush at_exit w
  = (hf <- JsonHistoryFlusher_init (filename (hist w)) (buffer (hist w))
             at_exit true ;;
     modify (with_hist (set_buffer [])) ;;;
     ret (Some hf)) w.
Proof.
  intros Hne. unfold flush at 1. unfold bind at 1. unfold get. simpl.
  by destruct (buffer (hist w)).
Qed.

Section AcrossFlush.

Variable w : world.
Variables (old : list cmd) (meta : gmap string value).
Variable at_exit : bool.

Hypothesis enabled : remember_history (hist w) = true.
Hypothesis idle : _queue (hist w) = [].
Hypothesis on_disk :
  fs w !! filename (hist w) = Some (Doc old meta).
Hypothesis logical_length :
  _len (hist w) - _skipped (hist w)
  = Z.of_nat (length old) + Z.of_nat (length (buffer (hist w))).
Hypothesis keeps_all :
  forall (hf : JsonHistoryFlusher) (w1 : world),
    dump_select hf (HISTCONTROL w) (buffer (hist w)) VNone [] w1
    = (Ret (buffer (hist w)), w1).
Hypothesis stamp_ok :
  at_exit = true ->
  forall ts, meta !! "ts" = Some ts ->
             exists l, ts = VList l /\ (1 < length l)%nat.

(** What the session file holds once the buffer has been flushed. *)
Local Abbreviation flushed :=
  (old ++ (if XONSH_STORE_STDOUT w then buffer (hist w)
           else base.delete "out" <$> buffer (hist w))).

Lemma dump_appends (hf : JsonHistoryFlusher) (w1 : world) :
  hf_buffer hf = buffer (hist w) ->
  hf_filename hf = filename (hist w) ->
  hf_at_exit hf = at_exit ->
  HISTCONTROL w1 = HISTCONTROL w ->
  XONSH_STORE_STDOUT w1 = XONSH_STORE_STDOUT w ->
  fs w1 = fs w ->
  exists meta',
    dump hf w1
    = (Ret tt,
       with_fs (fun m => <[filename (hist w) := Doc flushed meta']> m) w1).
Proof.
  intros Hb Hf Hx Ho Hs Hfs. unfold dump, bind, get. simpl.
  rewrite Ho, Hb, keeps_all. unfold read_doc. rewrite Hfs, Hf, on_disk.
  rewrite Hx, Hs. destruct at_exit; simpl; [|by eexists].
  pose proof (stamp_ok eq_refl) as Hok.
  destruct (meta !! "ts") as [ts|]; simpl; [|by eexists].
  destruct (Hok ts eq_refl) as (l & -> & Hl).
  simpl. apply Nat.ltb_lt in Hl. rewrite Hl. simpl. by eexists.
Qed.

Lemma flush_and_join_spec :
  buffer (hist w) <> [] ->
  exists w2 meta',
    flush_and_join at_exit w = (Ret tt, w2) /\
    remember_history (hist w2) = true /\
    _queue (hist w2) = [] /\
    buffer (hist w2) = [] /\
    filename (hist w2) = filename (hist w) /\
    _len (hist w2) - _skipped (hist w2)
      = _len (hist w) - _skipped (hist w) /\
    fs w2 !! filename (hist w) = Some (Doc flushed meta').
Proof.
  intros Hne. unfold flush_and_join. unfold bind at 1.
  rewrite flush_nonempty by done.
  set (hf := {| hf_id := next_id w; hf_filename := filename (hist w);
                hf_buffer := buffer (hist w); hf_at_exit := at_exit;
                hf_skip := true |}).
  set (wA := with_hist (fun h => set_queue (_queue h ++ [next_id w]) h)
               (with_next_id (S (next_id w)) w)).
  destruct (dump_appends hf wA) as [mA HdA]; try done.
  destruct (dump_appends hf (with_hist (set_buffer []) wA)) as [mB HdB];
    try done.
  unfold JsonHistoryFlusher_init, bind, fresh, queue_append, modify. simpl.
  fold hf. fold wA.
  destruct at_exit eqn:Hx; simpl.
  - rewrite HdA. simpl. unfold queue_popleft. simpl. rewrite idle. simpl.
    eexists _, mA. split; [reflexivity|]. simpl.
    by rewrite lookup_insert_eq.
  - unfold run, bind, wait_for_front. simpl. rewrite idle. simpl.
    rewrite Nat.eqb_refl. fold wA. rewrite HdB. simpl.
    unfold queue_popleft. simpl. rewrite idle. simpl.
    eexists _, mB. split; [reflexivity|]. simpl.
    by rewrite lookup_insert_eq.
Qed.

Lemma flushed_lookup (self : JsonCommandField) (i : nat) (c : cmd) :
  field self <> "out" \/ XONSH_STORE_STDOUT w = true ->
  (old ++ buffer (hist w)) !! i = Some c ->
  exists c', flushed !! i = Some c' /\
             dict_get c' (field self) (default self)
             = dict_get c (field self) (default self).
Proof.
  intros Hout Hi.
  destruct (decide (i < length old)%nat) as [Hlt|Hge].
  - rewrite lookup_app_l in Hi by done. exists c.
    by rewrite lookup_app_l by done.
  - rewrite lookup_app_r in Hi by lia. rewrite lookup_app_r by lia.
    destruct (XONSH_STORE_STDOUT w); [by exists c|].
    destruct Hout as [Hfld|]; [|done].
    exists (base.delete "out" c). rewrite list_lookup_fmap, Hi. simpl.
    split; [done | by apply dict_get_delete_ne].
Qed.

(** C5 as the code has it: provided the flush drops no record of the
    buffer ([HISTCONTROL] filters nothing out) and the field is not [out]
    (or captured output is stored), a read at any index [0 <= i < length]
    of an idle session returns the same value before the flush and after
    the flush has moved the buffer to the file. *)
Theorem read_same_across_flush (self : JsonCommandField) (i : Z) :
  field self <> "out" \/ XONSH_STORE_STDOUT w = true ->
  0 <= i < _len (hist w) - _skipped (hist w) ->
  exists v w2,
    (getitem self (KVal (VInt i)) w).1 = Ret v /\
    flush_and_join at_exit w = (Ret tt, w2) /\
    buffer (hist w2) = [] /\
    (getitem self (KVal (VInt i)) w2).1 = Ret v.
Proof.
  intros Hout [Hi0 Hi].
  rewrite logical_length in Hi.
  destruct (lookup_lt_is_Some_2 (old ++ buffer (hist w)) (Z.to_nat i))
    as [c Hc]; [rewrite length_app; lia|].
  rewrite <- (Z2Nat.id i) by done.
  exists (dict_get c (field self) (default self)).
  pose proof (getitem_logical self w old meta (Z.to_nat i) c enabled idle
                on_disk logical_length Hc) as Hbefore.
  destruct (decide (buffer (hist w) = [])) as [Hnil|Hne].
  - exists w. split_and!; try done.
    unfold flush_and_join, flush, bind, get. simpl. by rewrite Hnil.
  - destruct (flush_and_join_spec Hne)
      as (w2 & meta' & Hrun & Hon2 & Hq2 & Hb2 & Hf2 & Hlen2 & Hfs2).
    exists w2. split_and!; try done.
    destruct (flushed_lookup self (Z.to_nat i) c Hout Hc) as (c' & Hc' & <-).
    apply (getitem_logical self w2 flushed meta'); try done.
    + by rewrite Hf2.
    + rewrite Hlen2, logical_length, Hb2, length_app. simpl.
      destruct (XONSH_STORE_STDOUT w); rewrite ?length_fmap; lia.
    + by rewrite Hb2, app_nil_r.
Qed.

End AcrossFlush.

Lemma read_same_across_flush_witness :
  exists v w2,
    (getitem (accessor 1 "inp") (KVal (VInt 0)) buffered_one).1 = Ret v /\
    flush_and_join false buffered_one = (Ret tt, w2) /\
    buffer (hist w2) = [] /\
    (getitem (accessor 1 "inp") (KVal (VInt 0)) w2).1 = Ret v.
Proof.
  apply (read_same_across_flush buffered_one [] session_meta false).
  - reflexivity.
  - reflexivity.
  - reflexivity.
  - reflexivity.
  - intros hf w1. reflexivity.
  - discriminate.
  - left. discriminate.
  - simpl. lia.
Defined.

(** C5 as stated fails.  For the field [out]: captured output is not
    stored, so the flush strips [out] and the read that gave ["a.txt"]
    from the buffer gives the default afterwards.  And with
    ["ignoredups"] the flush drops the repeated command, so index 1 reads
    ["ls"] before the flush and ["pwd"] after it. *)
Lemma read_differs_across_flush :
  ((getitem (accessor 2 "out") (KVal (VInt 0)) buffered_one).1
     = Ret (VStr "a.txt") /\
   (flush_and_join false buffered_one).1 = Ret tt /\
   (getitem (accessor 2 "out") (KVal (VInt 0))
      (flush_and_join false buffered_one).2).1 = Ret VNone) /\
  ((getitem (accessor 1 "inp") (KVal (VInt 1)) dups_buffered).1
     = Ret (VStr "ls") /\
   (flush_and_join false dups_buffered).1 = Ret tt /\
   (getitem (accessor 1 "inp") (KVal (VInt 1))
      (flush_and_join false dups_buffered).2).1 = Ret (VStr "pwd")).
Proof. by vm_compute. Qed.

(** *** The pull cursors *)

Section Keeps.

Context (R : relation world) `{!PreOrder R}.

Lemma keeps_ret {A} (a : A) : keeps R (ret a).
Proof. intros w o w'. by inversion 1. Qed.

Lemma keeps_raise {A} (e : exn) : keeps R (@raise A e).
Proof. intros w o w'. by inversion 1. Qed.

Lemma keeps_get : keeps R get.
Proof. intros w o w'. by inversion 1. Qed.

Lemma keeps_modify (f : world -> world) :
  (forall w, R w (f w)) -> keeps R (modify f).
Proof. intros Hf w o w'. inversion 1. apply Hf. Qed.

Lemma keeps_bind {A B} (m : M A) (k : A -> M B) :
  keeps R m -> (forall a, keeps R (k a)) -> keeps R (bind m k).
Proof.
  intros Hm Hk w o w'. unfold bind.
  destruct (m w) as [[a|e|] w1] eqn:H1; intros H2.
  - etrans; [by eapply Hm | by eapply Hk].
  - inversion H2; subst. by eapply Hm.
  - inversion H2; subst. by eapply Hm.
Qed.

End Keeps.

#[local] Instance same_hist_preorder : PreOrder same_hist.
Proof.
  split.
  - by intros w.
  - intros w1 w2 w3 [H1 H2] [H3 H4]. split; congruence.
Qed.

Ltac keeps_step :=
  cbv beta zeta;
  first [ apply keeps_ret | apply keeps_raise | apply keeps_get
        | apply keeps_bind; [.. | intros ?] ];
  try (solve [apply _]).

Lemma get_history_files_pure (sort newest : bool) (since : option Q) :
  keeps eq (_xhj_get_history_files sort newest since).
Proof. unfold _xhj_get_history_files. repeat keeps_step. Qed.

Lemma ts_end_pure (item : cmd) : keeps eq (ts_end item).
Proof.
  unfold ts_end, dict_getitem. keeps_step.
  - destruct (item !! "ts"); keeps_step.
  - repeat case_match; keeps_step.
Qed.

Lemma pull_newer_pure (cutoff : Q) (rcmds : list cmd) :
  forall items, keeps eq (pull_newer cutoff rcmds items).
Proof.
  induction rcmds as [|item rest IH]; intros items; simpl.
  - keeps_step.
  - keeps_step; [apply ts_end_pure|].
    case_match; [apply IH | keeps_step].
Qed.

Lemma pull_paths_pure (pt : gmap (option string) Q) (t : Q) (cur : string)
    (paths : list string) :
  forall items, keeps eq (pull_paths pt t cur paths items).
Proof.
  induction paths as [|path rest IH]; intros items; simpl.
  - keeps_step.
  - case_match; [apply IH|].
    keeps_step; [keeps_step|].
    repeat case_match; try keeps_step; try apply IH;
      apply pull_newer_pure.
Qed.

Lemma pull_items_pure (pt : gmap (option string) Q) (src : option string) :
  keeps eq (_xhj_pull_items pt src).
Proof.
  unfold _xhj_pull_items. case_match; [|keeps_step].
  keeps_step; [keeps_step|]. keeps_step.
  - repeat case_match;
      first [apply get_history_files_pure | keeps_step].
  - keeps_step; [apply pull_paths_pure | keeps_step].
Qed.

Section PullFacts.

Variable rstrip : string -> string.

Lemma inp_line_pure (item : cmd) : keeps same_hist (inp_line rstrip item).
Proof.
  unfold inp_line, dict_getitem. keeps_step.
  - destruct (item !! "inp"); keeps_step.
  - repeat case_match; keeps_step.
Qed.

Lemma pull_feed_same_hist (show : bool) (items : list cmd) :
  forall prev cnt, keeps same_hist (pull_feed rstrip show items prev cnt).
Proof.
  induction items as [|item rest IH]; intros prev cnt; simpl.
  - keeps_step.
  - keeps_step; [apply inp_line_pure|].
    keeps_step.
    + destruct show; [by apply keeps_modify | keeps_step].
    + case_match; [apply IH|].
      keeps_step; [by apply keeps_modify | apply IH].
Qed.

(** C9 as the code has it: when [pull] returns on a shell that has a
    prompter, a pull with no source leaves exactly the entry
    [None -> now] in the cursor map, and a pull from one source sets that
    source's entry to [now] and leaves every other entry, the [None] entry
    included, as it was; on a shell without a prompter [pull] returns 0
    and the cursor map is untouched. *)
Theorem pull_updates_cursors (show : bool) (src : option string)
    (w : world) (cnt : Z) (w' : world) :
  pull rstrip show src w = (Ret cnt, w') ->
  match prompter w with
  | None =>
      cnt = 0 /\ last_pull_times (hist w') = last_pull_times (hist w)
  | Some _ =>
      match src with
      | None => last_pull_times (hist w') = {[ None := clock w ]}
      | Some sid =>
          last_pull_times (hist w') !! Some sid = Some (clock w) /\
          forall k, k <> Some sid ->
                    last_pull_times (hist w') !! k
                    = last_pull_times (hist w) !! k
      end
  end.
Proof.
  unfold pull, bind at 1, get.
  destruct (prompter w) as [h|]; [|by inversion 1].
  unfold bind at 1.
  destruct (_xhj_pull_items (last_pull_times (hist w)) src w)
    as [o1 w1] eqn:H1.
  apply pull_items_pure in H1 as <-.
  destruct o1 as [items| |]; [|by inversion 1..].
  unfold bind at 1.
  destruct (pull_feed rstrip show items None 0 w) as [o2 w2] eqn:H2.
  apply pull_feed_same_hist in H2 as [Hh Hc].
  destruct o2 as [n| |]; [|by inversion 1..].
  destruct src as [sid|]; unfold bind, ret, modify, time_time; simpl;
    inversion 1; subst; simpl; rewrite ?Hh, ?Hc.
  - split; [by rewrite lookup_insert_eq|].
    intros k Hk. by rewrite lookup_insert_ne.
  - by rewrite insert_empty.
Qed.

End PullFacts.

Lemma pull_updates_cursors_witness :
  pull id false None with_other_session
    = (Ret 1, (pull id false None with_other_session).2) /\
  last_pull_times (hist (pull id false None with_other_session).2)
    = {[ None := 100%Q ]} /\
  last_pull_times (hist (pull id false (Some "s2") with_other_session).2)
    !! Some "s2" = Some 100%Q /\
  (forall k, k <> Some "s2" ->
     last_pull_times (hist (pull id false (Some "s2") with_other_session).2)
       !! k
     = last_pull_times (hist with_other_session) !! k).
Proof.
  split; [reflexivity|]. split.
  - apply (pull_updates_cursors id false None with_other_session 1).
    reflexivity.
  - apply (pull_updates_cursors id false (Some "s2") with_other_session 1).
    reflexivity.
Defined.

(** C9 as stated fails: on a shell without a prompter [pull] returns 0 at
    once and the cursor map keeps its per-source entry. *)
Lemma pull_without_prompter_keeps_cursors :
  (pull id false None no_prompter).1 = Ret 0 /\
  last_pull_times (hist (pull id false None no_prompter).2) !! Some "s2"
    = Some 60%Q.
Proof. by vm_compute. Qed.

End HistFacts.

Module GCRunFacts.
Import GC GCRun.

Section MetricFacts.

Context {time : Type}.
Local Abbreviation hfile := (@hfile time).

Lemma commands_fit_fit_by (hsize : Z) (rl : list hfile) :
  forall n acc, commands_fit hsize rl n acc = fit_by ncmds_of hsize rl n acc.
Proof.
  induction rl as [|[[[ts c] p] sz] rest IH]; intros n acc; simpl; [done|].
  by rewrite IH.
Qed.

Lemma bytes_fit_fit_by (hsize : Z) (rl : list hfile) :
  forall n acc, bytes_fit hsize rl n acc = fit_by fsize_of hsize rl n acc.
Proof.
  induction rl as [|[[[ts c] p] sz] rest IH]; intros n acc; simpl; [done|].
  by rewrite IH.
Qed.

Lemma sum_cmds_total (l : list hfile) : sum_cmds l = total ncmds_of l.
Proof.
  unfold sum_cmds.
  assert (forall a, fold_left (fun acc '(_, fcmds, _, _) => acc + fcmds) l a
                    = a + total ncmds_of l) as H; [|by rewrite H].
  induction l as [|[[[ts c] p] sz] rest IH]; intros a; simpl; [lia|].
  rewrite IH. lia.
Qed.

Lemma sum_bytes_total (l : list hfile) : sum_bytes l = total fsize_of l.
Proof.
  unfold sum_bytes.
  assert (forall a, fold_left (fun acc '(_, _, _, fsize) => acc + fsize) l a
                    = a + total fsize_of l) as H; [|by rewrite H].
  induction l as [|[[[ts c] p] sz] rest IH]; intros a; simpl; [lia|].
  rewrite IH. lia.
Qed.

Lemma total_app (m : hfile -> Z) (l1 l2 : list hfile) :
  total m (l1 ++ l2) = total m l1 + total m l2.
Proof. induction l1 as [|f l1 IH]; simpl; lia. Qed.

Lemma total_reverse (m : hfile -> Z) (l : list hfile) :
  total m (reverse l) = total m l.
Proof.
  induction l as [|f l IH]; [done|].
  rewrite reverse_cons, total_app, IH. simpl. lia.
Qed.

(** What the fitting loop returns: it counted [k] more files, their
    metrics fit under the limit on top of [acc], and the next file, if
    there is one, does not fit any more. *)
Lemma fit_by_spec (m : hfile -> Z) (hsize : Z) (rl : list hfile) :
  forall n acc,
    exists k : nat,
      fit_by m hsize rl n acc = (n + k)%nat /\
      (k <= length rl)%nat /\
      ((0 < k)%nat -> acc + total m (take k rl) <= hsize) /\
      (forall f, rl !! k = Some f ->
                 hsize < acc + total m (take k rl) + m f).
Proof.
  induction rl as [|f rest IH]; intros n acc; simpl.
  - exists 0%nat. split_and!; [lia | done | lia | done].
  - destruct (Z.ltb_spec hsize (acc + m f)) as [Hover|Hfit].
    + exists 0%nat. split_and!; [lia | lia | lia |].
      intros f' [= <-]. simpl. lia.
    + destruct (IH (S n) (acc + m f)) as (k & Hk & Hlen & Hsum & Hnext).
      exists (S k). split_and!; [lia | lia | |].
      * intros _. simpl. destruct k; [simpl; lia|].
        specialize (Hsum ltac:(lia)). lia.
      * intros f' Hf'. simpl in *. specialize (Hnext f' Hf'). lia.
Qed.

(** The two size policies share this shape: with [n] the count of the
    fitting loop over the reversed list, the files to remove are
    [files[:-n]]. *)
Lemma fit_policy_spec (m : hfile -> Z) (hsize : Z) (files : list hfile) :
  let n := fit_by m hsize (reverse files) 0 0 in
  let rm := Py.slice_to (- Z.of_nat n) files in
  rm <> [] ->
  total m (kept files rm) <= hsize /\
  (forall f, last rm = Some f -> hsize < total m (kept files rm) + m f).
Proof.
  intros n rm Hrm.
  destruct (fit_by_spec m hsize (reverse files) 0 0)
    as (k & Hk & Hlen & Hsum & Hnext).
  rewrite length_reverse in Hlen. simpl in Hk.
  assert (n = k) as Hn by done. clearbody n. subst n.
  destruct k as [|k].
  { exfalso. apply Hrm. unfold rm. apply PyFacts.slice_to_0. }
  assert (rm = take (length files - S k) files) as Erm.
  { unfold rm. apply PyFacts.slice_to_neg. lia. }
  assert (kept files rm = drop (length files - S k) files) as Ekept.
  { unfold kept. rewrite Erm, length_take. f_equal. lia. }
  rewrite Ekept.
  rewrite take_reverse, total_reverse in Hsum, Hnext.
  split; [specialize (Hsum ltac:(lia)); lia|].
  intros f Hf. rewrite Erm, last_lookup, length_take in Hf.
  assert (length files - S k <> 0)%nat as Hpos.
  { intros H0. apply Hrm. rewrite Erm, H0. done. }
  rewrite lookup_take_lt in Hf by lia.
  specialize (Hnext f). rewrite reverse_lookup in Hnext by lia.
  replace (length files - S (S k))%nat
    with (Init.Nat.pred ((length files - S k) `min` length files))%nat
    in Hnext by lia.
  specialize (Hnext Hf). lia.
Qed.

Lemma total_nonneg (m : hfile -> Z) (l : list hfile) :
  Forall (fun f => 0 <= m f) l -> 0 <= total m l.
Proof. induction 1; simpl; lia. Qed.

Lemma total_take_le (m : hfile -> Z) (l : list hfile) (k : nat) :
  Forall (fun f => 0 <= m f) l -> total m (take k l) <= total m l.
Proof.
  intros Hl. revert k. induction Hl as [|f l Hf Hl IH]; intros [|k]; simpl;
    try lia.
  - pose proof (total_nonneg m l Hl). lia.
  - specialize (IH k). lia.
Qed.

Lemma fit_policy_all_fit (m : hfile -> Z) (hsize : Z) (files : list hfile) :
  Forall (fun f => 0 <= m f) files ->
  total m files <= hsize ->
  Py.slice_to (- Z.of_nat (fit_by m hsize (reverse files) 0 0)) files = [].
Proof.
  intros Hpos Hfit.
  destruct (fit_by_spec m hsize (reverse files) 0 0)
    as (k & -> & Hlen & _ & Hnext).
  rewrite length_reverse in Hlen. simpl.
  destruct (decide (k = length files)) as [->|Hne].
  - destruct files as [|f files]; [done|].
    rewrite PyFacts.slice_to_neg by (simpl; lia).
    by rewrite Nat.sub_diag.
  - exfalso.
    destruct (lookup_lt_is_Some_2 (reverse files) k) as [f Hf];
      [rewrite length_reverse; lia|].
    specialize (Hnext f Hf).
    pose proof (total_take_le m (reverse files) (S k)) as Hle.
    rewrite (take_S_r _ _ _ Hf), total_app, total_reverse in Hle. simpl in Hle.
    assert (Forall (fun f => 0 <= m f) (reverse files)) as Hrev.
    { rewrite Forall_forall in *. intros x Hx. apply Hpos.
      by apply elem_of_reverse. }
    specialize (Hle Hrev). lia.
Qed.

(** X1: whenever the command-count policy or the byte-size policy marks
    any file for removal, the files it keeps total at most the limit, and
    the amount it reports is the total of the files it removes. *)
Theorem size_policies_keep_within_limit (hsize : Z) (files : list hfile) :
  (forall over rm,
      _xhj_gc_commands_to_rmfiles hsize files = (over, rm) -> rm <> [] ->
      total ncmds_of (kept files rm) <= hsize /\ over = total ncmds_of rm) /\
  (forall over rm,
      _xhj_gc_bytes_to_rmfiles hsize files = (over, rm) -> rm <> [] ->
      total fsize_of (kept files rm) <= hsize /\ over = total fsize_of rm).
Proof.
  split; intros over rm [= <- <-] Hrm.
  - rewrite commands_fit_fit_by in *. rewrite sum_cmds_total.
    split; [|done]. by apply fit_policy_spec.
  - rewrite bytes_fit_fit_by in *. rewrite sum_bytes_total.
    split; [|done]. by apply fit_policy_spec.
Qed.

(** X2: the size policies remove no more than they must: the newest
    removed file would not have fitted under the limit on top of the kept
    files. *)
Theorem size_policies_remove_only_what_overflows
    (hsize : Z) (files : list hfile) (f : hfile) :
  (last (_xhj_gc_commands_to_rmfiles hsize files).2 = Some f ->
   hsize < total ncmds_of
             (kept files (_xhj_gc_commands_to_rmfiles hsize files).2)
           + ncmds_of f) /\
  (last (_xhj_gc_bytes_to_rmfiles hsize files).2 = Some f ->
   hsize < total fsize_of
             (kept files (_xhj_gc_bytes_to_rmfiles hsize files).2)
           + fsize_of f).
Proof.
  split; simpl; intros Hlast.
  - rewrite commands_fit_fit_by in *.
    apply fit_policy_spec; [|done]. by intros E; rewrite E in Hlast.
  - rewrite bytes_fit_fit_by in *.
    apply fit_policy_spec; [|done]. by intros E; rewrite E in Hlast.
Qed.

(** X3: when all files together fit under the limit (sizes being
    non-negative), the size policies remove nothing. *)
Theorem size_policies_remove_nothing_when_all_fit
    (hsize : Z) (files : list hfile) :
  (Forall (fun f => 0 <= ncmds_of f) files ->
   total ncmds_of files <= hsize ->
   _xhj_gc_commands_to_rmfiles hsize files = (0, [])) /\
  (Forall (fun f => 0 <= fsize_of f) files ->
   total fsize_of files <= hsize ->
   _xhj_gc_bytes_to_rmfiles hsize files = (0, [])).
Proof.
  split; intros Hpos Hfit.
  - unfold _xhj_gc_commands_to_rmfiles. rewrite commands_fit_fit_by.
    by rewrite fit_policy_all_fit.
  - unfold _xhj_gc_bytes_to_rmfiles. rewrite bytes_fit_fit_by.
    by rewrite fit_policy_all_fit.
Qed.

Section Age.

Variable time_sub : time -> time -> time.
Variable time_ltb : time -> time -> bool.
Variable time_zero : time.

Lemma seconds_expired_spec (now hsecs : time) (files : list hfile) :
  forall n : nat,
    exists k : nat,
      seconds_expired time_sub time_ltb now hsecs files n = (n + k)%nat /\
      (k <= length files)%nat /\
      Forall (fun f => time_ltb (time_sub now (ts_of f)) hsecs = false)
        (take k files) /\
      (forall f, files !! k = Some f ->
                 time_ltb (time_sub now (ts_of f)) hsecs = true).
Proof.
  induction files as [|[[[ts c] p] sz] rest IH]; intros n; simpl.
  - exists 0%nat. split_and!; [lia | done | done | done].
  - destruct (time_ltb (time_sub now ts) hsecs) eqn:Hyoung.
    + exists 0%nat. split_and!; [lia | lia | done |].
      by intros f [= <-].
    + destruct (IH (S n)) as (k & Hk & Hlen & Hold & Hnext).
      exists (S k). split_and!; [lia | lia | by constructor | done].
Qed.

(** X4: the age policy removes exactly the leading run of files that are
    not younger than the limit: for every removed file [now - ts < hsize]
    is false, and for the oldest kept file, if there is one, it is
    true. *)
Theorem age_policy_removes_expired_run (now hsecs : time)
    (files : list hfile) :
  let rm := (_xhj_gc_seconds_to_rmfiles time_sub time_ltb time_zero now
               hsecs files).2 in
  Forall (fun f => time_ltb (time_sub now (ts_of f)) hsecs = false) rm /\
  (forall f, head (kept files rm) = Some f ->
             time_ltb (time_sub now (ts_of f)) hsecs = true).
Proof.
  simpl.
  destruct (seconds_expired_spec now hsecs files 0)
    as (k & -> & Hlen & Hold & Hnext). simpl.
  assert (Py.slice_to (Z.of_nat k) files = take k files) as ->.
  { unfold Py.slice_to. destruct (Z.ltb_spec (Z.of_nat k) 0); [lia|].
    f_equal. lia. }
  split; [done|].
  intros f. unfold kept. rewrite length_take, head_lookup, lookup_drop.
  replace (k `min` length files + 0)%nat with k by lia. apply Hnext.
Qed.

End Age.

End MetricFacts.

Lemma size_policies_keep_within_limit_witness :
  let files := [(1%Q, 5, "xonsh-a.json", 50); (2%Q, 3, "xonsh-b.json", 30);
                (3%Q, 4, "xonsh-c.json", 100)] in
  _xhj_gc_commands_to_rmfiles 8 files = (5, [(1%Q, 5, "xonsh-a.json", 50)]) /\
  total ncmds_of (kept files [(1%Q, 5, "xonsh-a.json", 50)]) <= 8 /\
  _xhj_gc_bytes_to_rmfiles 100 files
    = (80, [(1%Q, 5, "xonsh-a.json", 50); (2%Q, 3, "xonsh-b.json", 30)]) /\
  total fsize_of
    (kept files [(1%Q, 5, "xonsh-a.json", 50); (2%Q, 3, "xonsh-b.json", 30)])
  <= 100.
Proof.
  intros files.
  destruct (size_policies_keep_within_limit 8 files) as [Hc _].
  destruct (size_policies_keep_within_limit 100 files) as [_ Hb].
  split_and!; [reflexivity | | reflexivity | ].
  - apply (Hc 5 [(1%Q, 5, "xonsh-a.json", 50)]); [reflexivity | discriminate].
  - apply (Hb 80 [(1%Q, 5, "xonsh-a.json", 50);
                  (2%Q, 3, "xonsh-b.json", 30)]);
      [reflexivity | discriminate].
Defined.

Lemma size_policies_remove_only_what_overflows_witness :
  let files := [(1%Q, 5, "xonsh-a.json", 50); (2%Q, 3, "xonsh-b.json", 30);
                (3%Q, 4, "xonsh-c.json", 100)] in
  8 < total ncmds_of (kept files (_xhj_gc_commands_to_rmfiles 8 files).2) + 5
  /\
  100 < total fsize_of (kept files (_xhj_gc_bytes_to_rmfiles 100 files).2)
        + 30.
Proof.
  intros files.
  destruct (size_policies_remove_only_what_overflows 8 files
              (1%Q, 5, "xonsh-a.json", 50)) as [Hc _].
  destruct (size_policies_remove_only_what_overflows 100 files
              (2%Q, 3, "xonsh-b.json", 30)) as [_ Hb].
  split; [apply Hc | apply Hb]; reflexivity.
Defined.

Lemma size_policies_remove_nothing_when_all_fit_witness :
  let files := [(1%Q, 5, "xonsh-a.json", 50); (2%Q, 3, "xonsh-b.json", 30)] in
  _xhj_gc_commands_to_rmfiles 8 files = (0, []) /\
  _xhj_gc_bytes_to_rmfiles 80 files = (0, []).
Proof.
  intros files.
  destruct (size_policies_remove_nothing_when_all_fit 8 files) as [Hc _].
  destruct (size_policies_remove_nothing_when_all_fit 80 files) as [_ Hb].
  split; [apply Hc | apply Hb]; try (simpl; lia);
    repeat constructor; simpl; lia.
Defined.

Lemma age_policy_removes_expired_run_witness :
  let files := [(1%Q, 5, "xonsh-a.json", 50); (20%Q, 3, "xonsh-b.json", 30)] in
  let ltb := fun a b : Q => negb (Qle_bool b a) in
  (_xhj_gc_seconds_to_rmfiles Qminus ltb 0%Q 30%Q 15%Q files).2
    = [(1%Q, 5, "xonsh-a.json", 50)] /\
  ltb (30 - 1)%Q 15%Q = false /\
  ltb (30 - 20)%Q 15%Q = true.
Proof.
  intros files ltb.
  destruct (age_policy_removes_expired_run Qminus ltb 0%Q 30%Q 15%Q files)
    as [Hold Hyoung].
  split_and!; [reflexivity | |].
  - by inversion Hold.
  - by apply (Hyoung (20%Q, 3, "xonsh-b.json", 30)).
Defined.

(** *** The collector's run *)

Lemma remove_files_lookup (rm : list (@hfile Q)) :
  forall (fs : gmap string Hist.file) (p : string),
    remove_files rm fs !! p
    = if decide (p ∈ path_of <$> rm) then None else fs !! p.
Proof.
  unfold remove_files.
  induction rm as [|f rm IH]; intros fs p.
  - case_decide; [set_solver | done].
  - rewrite fmap_cons. cbn [fold_left]. rewrite IH.
    destruct (decide (p = path_of f)) as [->|Hne].
    + rewrite (decide_True (P := path_of f ∈ path_of f :: _));
        [|by apply elem_of_cons; left].
      case_decide; [done | by rewrite lookup_delete_eq].
    + rewrite lookup_delete_ne by done.
      destruct (decide (p ∈ path_of <$> rm)) as [Hin|Hnin].
      * rewrite decide_True; [done | by apply elem_of_cons; right].
      * rewrite decide_False; [done|].
        by intros [?|?]%elem_of_cons.
Qed.

Lemma rmfiles_fn_prefix (units : string) (now : Q) (hsize : Z)
    (files : list (@hfile Q)) over rm :
  rmfiles_fn units now hsize files = Some (over, rm) ->
  rm `prefix_of` files.
Proof.
  unfold rmfiles_fn, _xhj_gc_files_to_rmfiles. repeat case_match;
    intros; simplify_eq/=;
    try apply PyFacts.slice_to_prefix; try apply prefix_nil.
  all: match goal with
       | H : _ = (_, ?r) |- ?r `prefix_of` _ =>
           inversion H; subst; apply PyFacts.slice_to_prefix
       end.
Qed.

Lemma gc_run_removes_only_marked_files_aux (force_gc : bool)
    (units : string) (hsize : Z) (now : Q) (files : list (@hfile Q))
    (fs : gmap string Hist.file) (r : gc_result) :
  run force_gc units hsize now files fs = inr r ->
  gc_rm_files r `prefix_of` files /\
  (forall p, p ∉ path_of <$> gc_rm_files r -> gc_fs r !! p = fs !! p).
Proof.
  unfold run.
  destruct (rmfiles_fn units now hsize files) as [[over rm]|] eqn:Hfn;
    [|done].
  intros [= <-]. simpl. split.
  - by eapply rmfiles_fn_prefix.
  - intros p Hp. case_match; [|done].
    rewrite remove_files_lookup. by rewrite decide_False.
Qed.

(** X6: a run of the collector removes nothing but files the policy
    marked, which are among the oldest of the list it was given; and a
    run that is not forced removes nothing at all when the amount to
    discard is not smaller than the limit. *)
Theorem gc_run_removes_only_marked_files (force_gc : bool) (units : string)
    (hsize : Z) (now : Q) (files : list (@hfile Q))
    (fs : gmap string Hist.file) (r : gc_result) :
  run force_gc units hsize now files fs = inr r ->
  gc_rm_files r `prefix_of` files /\
  (forall p, p ∉ path_of <$> gc_rm_files r -> gc_fs r !! p = fs !! p) /\
  (force_gc = false ->
   (inject_Z hsize <= gc_size_over r)%Q ->
   gc_fs r = fs /\ gc_warned r = true).
Proof.
  unfold run.
  destruct (rmfiles_fn units now hsize files) as [[over rm]|] eqn:Hfn;
    [|done].
  intros [= <-]. simpl. split_and!.
  - by eapply rmfiles_fn_prefix.
  - intros p Hp. case_match; [|done].
    rewrite remove_files_lookup. by rewrite decide_False.
  - intros -> Hle. apply Qle_bool_iff in Hle. by rewrite Hle.
Qed.


(** X8: a history size in units the collector does not know makes the
    run fail with [ValueError] before anything is removed. *)
Theorem gc_run_unknown_units (force_gc : bool) (units : string)
    (hsize : Z) (now : Q) (files : list (@hfile Q))
    (fs : gmap string Hist.file) :
  units ∉ ["commands"; "files"; "s"; "b"] ->
  run force_gc units hsize now files fs = inl Hist.ValueError.
Proof.
  intros Hu. unfold run, rmfiles_fn.
  destruct (String.eqb_spec units "commands") as [->|_];
    [exfalso; apply Hu; repeat constructor|].
  destruct (String.eqb_spec units "files") as [->|_];
    [exfalso; apply Hu; repeat constructor|].
  destruct (String.eqb_spec units "s") as [->|_];
    [exfalso; apply Hu; repeat constructor|].
  destruct (String.eqb_spec units "b") as [->|_];
    [exfalso; apply Hu; repeat constructor|].
  done.
Qed.

Lemma slice_to_neg_shorter {A} (n : nat) (l : list A) :
  l <> [] -> (length (Py.slice_to (- Z.of_nat n) l) < length l)%nat.
Proof.
  intros Hl. assert (0 < length l)%nat by (destruct l; simpl; [done | lia]).
  destruct n as [|n].
  - change (- Z.of_nat 0) with (- 0). by rewrite PyFacts.slice_to_0.
  - rewrite PyFacts.slice_to_neg by lia. rewrite length_take. lia.
Qed.

Lemma strict_prefix_misses_last (files rm : list (@hfile Q)) (f : @hfile Q) :
  NoDup (path_of <$> files) ->
  rm `prefix_of` files -> (length rm < length files)%nat ->
  last files = Some f ->
  path_of f ∉ path_of <$> rm.
Proof.
  intros Hnd [k ->] Hlen Hlast.
  rewrite length_app in Hlen.
  destruct k as [|g k] using rev_ind; [simpl in Hlen; lia|].
  rewrite app_assoc, last_snoc in Hlast. injection Hlast as ->.
  rewrite fmap_app in Hnd. apply NoDup_app in Hnd as (_ & Hdisj & _).
  intros Hin. apply (Hdisj _ Hin).
  rewrite fmap_app. apply elem_of_app. right. by apply elem_of_cons; left.
Qed.

(** X9: under the command-count and byte-size policies, and under the
    file-count policy with a positive limit, a run never removes the
    newest file of the list (the paths being distinct). *)
Theorem gc_run_keeps_newest_file (force_gc : bool) (units : string)
    (hsize : Z) (now : Q) (files : list (@hfile Q))
    (fs : gmap string Hist.file) (r : gc_result) (f : @hfile Q) :
  units = "commands" \/ units = "b" \/ (units = "files" /\ 0 < hsize) ->
  NoDup (path_of <$> files) ->
  last files = Some f ->
  run force_gc units hsize now files fs = inr r ->
  gc_fs r !! path_of f = fs !! path_of f.
Proof.
  intros Hunits Hnd Hlast Hrun.
  destruct (gc_run_removes_only_marked_files_aux force_gc units hsize now
              files fs r Hrun) as (Hpre & Hframe).
  apply Hframe. apply (strict_prefix_misses_last files); try done.
  assert (files <> []) as Hne by (by intros ->).
  unfold run in Hrun.
  destruct (rmfiles_fn units now hsize files) as [[over rm]|] eqn:Hfn;
    [|done].
  injection Hrun as <-. simpl. unfold rmfiles_fn in Hfn.
  destruct Hunits as [->|[->|[-> Hpos]]]; simpl in Hfn;
    injection Hfn as _ <-.
  - by apply slice_to_neg_shorter.
  - by apply slice_to_neg_shorter.
  - assert (0 < length files)%nat
      by (destruct files; simpl; [done | lia]).
    destruct (Z.ltb_spec hsize (Z.of_nat (length files))); [|simpl; lia].
    unfold Py.slice_to. destruct (Z.ltb_spec (- hsize) 0); [|lia].
    rewrite length_take. lia.
Qed.

Lemma gc_run_removes_only_marked_files_witness :
  exists r,
    run false "commands" 8 0 example_files example_fs = inr r /\
    gc_rm_files r `prefix_of` example_files /\
    (forall p, p ∉ path_of <$> gc_rm_files r ->
               gc_fs r !! p = example_fs !! p) /\
    (false = false -> (inject_Z 8 <= gc_size_over r)%Q ->
     gc_fs r = example_fs /\ gc_warned r = true).
Proof.
  eexists. split; [reflexivity|].
  apply (gc_run_removes_only_marked_files false "commands" 8 0 example_files
           example_fs).
  reflexivity.
Defined.


Lemma gc_run_unknown_units_witness :
  run true "kb" 8 0 example_files example_fs = inl Hist.ValueError.
Proof.
  apply gc_run_unknown_units.
  intros H. repeat (apply elem_of_cons in H as [H|H]; [discriminate|]).
  by apply elem_of_nil in H.
Defined.

Lemma gc_run_keeps_newest_file_witness :
  exists r,
    run true "files" 1 0 example_files example_fs = inr r /\
    gc_fs r !! "xonsh-c.json" = example_fs !! "xonsh-c.json" /\
    gc_fs r !! "xonsh-a.json" = None.
Proof.
  eexists. split; [reflexivity|]. split; [|reflexivity].
  apply (gc_run_keeps_newest_file true "files" 1 0 example_files example_fs
           _ (3%Q, 4, "xonsh-c.json", 100)).
  - right. right. split; [reflexivity | lia].
  - apply (bool_decide_unpack _). by vm_compute.
  - reflexivity.
  - reflexivity.
Defined.

(** X5 is [GCFacts.files_policy_positive]; this is an instance of it. *)
Lemma files_policy_positive_witness :
  let files := [(1%Q, 5, "xonsh-a.json", 50); (2%Q, 3, "xonsh-b.json", 30);
                (3%Q, 4, "xonsh-c.json", 100); (4%Q, 1, "xonsh-d.json", 10)] in
  0 < 2 /\
  _xhj_gc_files_to_rmfiles 2 files
    = (2, [(1%Q, 5, "xonsh-a.json", 50); (2%Q, 3, "xonsh-b.json", 30)]) /\
  Z.of_nat (length (kept files (_xhj_gc_files_to_rmfiles 2 files).2))
    = Z.min 2 4.
Proof.
  intros files.
  pose proof (GCFacts.files_policy_positive 2 files ltac:(lia)) as H.
  split_and!; [lia | reflexivity | apply H].
Defined.

End GCRunFacts.

Module SessionFacts.
Import Hist Examples HistFacts Session SessionExamples.
Local Open Scope py_scope.

(** *** Reads of the field accessor *)

Lemma getitem_int_unfold (self : JsonCommandField) (z : Z) (w : world) :
  remember_history (hist w) = true ->
  0 <= _len (hist w) - _skipped (hist w) ->
  getitem self (KVal (VInt z)) w = getitem_int self z w.
Proof.
  intros Hon Hlen. unfold getitem, bind, get. rewrite Hon. simpl.
  by rewrite hist_len_ok.
Qed.

(** X10: a read whose index falls in the buffered tail is served from the
    buffer alone: whatever the state of the file and of the queue, it
    returns the field of the buffered command (or the default) and leaves
    the state untouched. *)
Theorem getitem_buffered_bypasses_file (self : JsonCommandField)
    (w : world) (k : Z) :
  let size := _len (hist w) - _skipped (hist w) in
  let bufsize := Z.of_nat (length (buffer (hist w))) in
  remember_history (hist w) = true ->
  0 <= k -> size - bufsize <= k < size ->
  exists c,
    buffer (hist w) !! Z.to_nat (k - (size - bufsize)) = Some c /\
    getitem self (KVal (VInt k)) w
    = (Ret (dict_get c (field self) (default self)), w).
Proof.
  intros size bufsize Hon Hk0 [Hlo Hhi].
  destruct (lookup_lt_is_Some_2 (buffer (hist w))
              (Z.to_nat (k - (size - bufsize)))) as [c Hc];
    [unfold bufsize in *; lia|].
  exists c. split; [done|].
  rewrite getitem_int_unfold by (fold size; lia || done).
  unfold getitem_int, bind, get. rewrite Hon. simpl.
  rewrite hist_len_ok by (fold size; lia). fold size. fold bufsize.
  destruct (Z.eqb_spec size 0); [lia|].
  destruct (Z.ltb_spec k 0); [lia|].
  destruct (Z.leb_spec (size - bufsize) k); [|lia].
  replace (k + bufsize - size) with (k - (size - bufsize)) by lia.
  by rewrite Hc.
Qed.

(** X11: an index at or past the logical length raises [IndexError]
    and leaves the state untouched, also when the history is empty; this
    is what ends an iteration over the accessor. *)
Theorem getitem_past_end (self : JsonCommandField) (w : world) (k : Z) :
  remember_history (hist w) = true ->
  0 <= _len (hist w) - _skipped (hist w) <= k ->
  exists msg, getitem self (KVal (VInt k)) w = (Raise (IndexError msg), w).
Proof.
  intros Hon [Hlen Hk].
  rewrite getitem_int_unfold by done.
  unfold getitem_int, bind, get. rewrite Hon. simpl.
  rewrite hist_len_ok by done.
  destruct (Z.eqb_spec (_len (hist w) - _skipped (hist w)) 0);
    [by eexists|].
  destruct (Z.ltb_spec k 0); [lia|].
  destruct (Z.leb_spec
              (_len (hist w) - _skipped (hist w)
               - Z.of_nat (length (buffer (hist w)))) k); [|lia].
  rewrite lookup_ge_None_2 by lia. by eexists.
Qed.

Lemma getitem_negative_index_aux (self : JsonCommandField) (w : world)
    (k : Z) :
  remember_history (hist w) = true ->
  - (_len (hist w) - _skipped (hist w)) <= k < 0 ->
  getitem self (KVal (VInt k)) w
  = getitem self (KVal (VInt (_len (hist w) - _skipped (hist w) + k))) w.
Proof.
  intros Hon [Hlo Hhi].
  rewrite !getitem_int_unfold by (lia || done).
  unfold getitem_int, bind, get. rewrite Hon. simpl.
  rewrite hist_len_ok by lia.
  destruct (Z.eqb_spec (_len (hist w) - _skipped (hist w)) 0); [done|].
  destruct (Z.ltb_spec k 0); [|lia].
  by destruct (Z.ltb_spec (_len (hist w) - _skipped (hist w) + k) 0);
    [lia|].
Qed.

(** X12: a negative index counts from the end: for [-length <= k < 0]
    a read at [k] is the read at [length + k]. *)
Theorem getitem_negative_index (self : JsonCommandField) (w : world)
    (k : Z) :
  remember_history (hist w) = true ->
  - (_len (hist w) - _skipped (hist w)) <= k < 0 ->
  getitem self (KVal (VInt k)) w
  = getitem self (KVal (VInt (_len (hist w) - _skipped (hist w) + k))) w.
Proof. apply getitem_negative_index_aux. Qed.

Lemma requeue_id (id : nat) (w : world) :
  _queue (hist w) = [] ->
  with_hist (set_queue [])
    (with_hist (fun h => set_queue (_queue h ++ [id]) h) w) = w.
Proof.
  destruct w as [a b c d e f g h i j hh]. destruct hh. simpl.
  by intros ->.
Qed.

Lemma getitem_int_consistent (self : JsonCommandField) (w : world)
    (old : list cmd) (meta : gmap string value) (i : nat) (c : cmd) :
  consistent w old meta ->
  (old ++ buffer (hist w)) !! i = Some c ->
  getitem_int self (Z.of_nat i) w
  = (Ret (dict_get c (field self) (default self)), w).
Proof.
  intros (Hon & Hq & Hfs & Hlen) Hi.
  pose proof (lookup_lt_Some _ _ _ Hi) as Hlt. rewrite length_app in Hlt.
  unfold getitem_int, bind, get. simpl. rewrite Hon. simpl.
  rewrite hist_len_ok by lia. rewrite Hlen.
  destruct (Z.eqb_spec (Z.of_nat (length old)
                        + Z.of_nat (length (buffer (hist w)))) 0); [lia|].
  destruct (Z.ltb_spec (Z.of_nat i) 0); [lia|].
  destruct (Z.leb_spec
              (Z.of_nat (length old) + Z.of_nat (length (buffer (hist w)))
               - Z.of_nat (length (buffer (hist w)))) (Z.of_nat i))
    as [Hbuf|Hfile].
  - rewrite lookup_app_r in Hi by lia.
    replace (Z.to_nat _) with (i - length old)%nat by lia.
    by rewrite Hi.
  - rewrite lookup_app_l in Hi by lia.
    unfold wait_for_front, read_doc, queue_popleft, lj_cmds_getitem. simpl.
    rewrite Hq. simpl. rewrite Nat.eqb_refl. simpl. rewrite Hfs. simpl.
    destruct (Z.leb_spec 0 (Z.of_nat i)); [|lia].
    destruct (Z.ltb_spec (Z.of_nat i) (Z.of_nat (length old))); [|lia].
    simpl. rewrite Nat2Z.id, Hi. simpl. rewrite Hq. simpl.
    f_equal. rewrite <- Hq at 1.
    replace ([jcf_id self]) with (_queue (hist w) ++ [jcf_id self])
      by (by rewrite Hq).
    rewrite <- (requeue_id (jcf_id self) w Hq) at 3. by rewrite Hq.
Qed.

Lemma getitem_reads_logical_list_aux (self : JsonCommandField) (w : world)
    (old : list cmd) (meta : gmap string value) (i : nat) (c : cmd) :
  consistent w old meta ->
  (old ++ buffer (hist w)) !! i = Some c ->
  getitem self (KVal (VInt (Z.of_nat i))) w
  = (Ret (dict_get c (field self) (default self)), w).
Proof.
  intros Hc Hi. pose proof Hc as (Hon & _ & _ & Hlen).
  rewrite getitem_int_unfold by (done || lia).
  by eapply getitem_int_consistent.
Qed.

(** X13: on a consistent session a read at a valid index returns the
    field of the entry at that index of "file commands, then buffer" and
    leaves the whole state as it found it: a read that went to the file
    has left the queue again. *)
Theorem getitem_reads_logical_list (self : JsonCommandField) (w : world)
    (old : list cmd) (meta : gmap string value) (i : nat) (c : cmd) :
  consistent w old meta ->
  (old ++ buffer (hist w)) !! i = Some c ->
  getitem self (KVal (VInt (Z.of_nat i))) w
  = (Ret (dict_get c (field self) (default self)), w).
Proof. apply getitem_reads_logical_list_aux. Qed.

Lemma mapM_getitem_seq (self : JsonCommandField) (w : world)
    (old : list cmd) (meta : gmap string value) :
  consistent w old meta ->
  forall (n a : nat),
    (a + n <= length (old ++ buffer (hist w)))%nat ->
    mapM (getitem_int self) (Z.of_nat <$> seq a n) w
    = (Ret (field_values self (take n (drop a (old ++ buffer (hist w))))),
       w).
Proof.
  intros Hc. induction n as [|n IH]; intros a Ha; [done|].
  destruct (lookup_lt_is_Some_2 (old ++ buffer (hist w)) a) as [c Hi];
    [lia|].
  cbn [seq fmap list_fmap mapM]. unfold bind at 1.
  rewrite (getitem_int_consistent self w old meta a c Hc Hi).
  unfold bind at 1. rewrite IH by lia.
  rewrite (drop_S _ _ _ Hi). done.
Qed.

Lemma range_step_one (a b : Z) :
  0 <= a ->
  Py.range a b 1 = Z.of_nat <$> seq (Z.to_nat a) (Z.to_nat (b - a)).
Proof.
  intros Ha. unfold Py.range. simpl.
  replace ((b - a + 1 - 1) / 1) with (b - a) by (rewrite Z.div_1_r; lia).
  replace (Z.to_nat (Z.max 0 (b - a))) with (Z.to_nat (b - a)) by lia.
  replace (seq (Z.to_nat a) (Z.to_nat (b - a)))
    with (Nat.add (Z.to_nat a) <$> seq 0 (Z.to_nat (b - a)))
    by (rewrite fmap_add_seq; f_equal; lia).
  rewrite <- list_fmap_compose.
  apply list_fmap_ext. intros _ k _. simpl. lia.
Qed.

(** X14: slicing the accessor with [start:stop] on a consistent session
    gives the fields of the Python slice [start:stop] of "file commands,
    then buffer", in order, and leaves the state as it was. *)
Theorem getitem_slice (self : JsonCommandField) (w : world)
    (old : list cmd) (meta : gmap string value) (start stop : option Z) :
  consistent w old meta ->
  getitem self (KSlice start stop None) w
  = (Ret (VList (field_values self
                   (py_slice start stop (old ++ buffer (hist w))))), w).
Proof.
  intros Hc. pose proof Hc as (Hon & _ & _ & Hlen).
  unfold getitem, bind at 1, get. rewrite Hon. simpl.
  unfold bind at 1. rewrite hist_len_ok by lia. rewrite Hlen.
  unfold bind at 1, slice_indices, ret. simpl.
  set (size := Z.of_nat (length old) + Z.of_nat (length (buffer (hist w)))).
  assert (Z.of_nat (length (old ++ buffer (hist w))) = size) as Hsz
    by (rewrite length_app; unfold size; lia).
  unfold py_slice. rewrite Hsz.
  match goal with
  | |- context [Py.range ?x ?y 1] => set (a := x); set (b := y)
  end.
  assert (0 <= a <= size /\ 0 <= b <= size) as [Ha Hb].
  { unfold a, b, size.
    split; [destruct start as [i|] | destruct stop as [i|]].
    all: try destruct (Z.ltb_spec i 0).
    all: lia. }
  rewrite range_step_one by lia. unfold bind.
  destruct (decide (a <= b)) as [Hab|Hab].
  - rewrite (mapM_getitem_seq self w old meta Hc) by (rewrite length_app; lia).
    done.
  - replace (Z.to_nat (b - a)) with 0%nat by lia. done.
Qed.

Lemma two_on_disk_consistent :
  consistent two_on_disk_one_buffered
    [entry "ls" "a.txt"; entry "pwd" "/"] session_meta.
Proof. by vm_compute. Qed.

Lemma getitem_buffered_bypasses_file_witness :
  exists c,
    buffer (hist buffered_no_file) !! 0%nat = Some c /\
    getitem (accessor 1 "inp") (KVal (VInt 0)) buffered_no_file
    = (Ret (dict_get c "inp" VNone), buffered_no_file).
Proof.
  apply (getitem_buffered_bypasses_file (accessor 1 "inp") buffered_no_file 0).
  - reflexivity.
  - lia.
  - simpl. lia.
Defined.

Lemma getitem_past_end_witness :
  exists msg,
    getitem (accessor 1 "inp") (KVal (VInt 3)) two_on_disk_one_buffered
    = (Raise (IndexError msg), two_on_disk_one_buffered).
Proof.
  apply getitem_past_end; [reflexivity | simpl; lia].
Defined.

Lemma getitem_negative_index_witness :
  getitem (accessor 1 "inp") (KVal (VInt (-1))) two_on_disk_one_buffered
  = getitem (accessor 1 "inp") (KVal (VInt 2)) two_on_disk_one_buffered.
Proof.
  apply (getitem_negative_index (accessor 1 "inp") two_on_disk_one_buffered
           (-1)); [reflexivity | simpl; lia].
Defined.

Lemma getitem_reads_logical_list_witness :
  getitem (accessor 1 "inp") (KVal (VInt 1)) two_on_disk_one_buffered
  = (Ret (VStr "pwd"), two_on_disk_one_buffered).
Proof.
  apply (getitem_reads_logical_list (accessor 1 "inp")
           two_on_disk_one_buffered _ session_meta 1 (entry "pwd" "/")
           two_on_disk_consistent).
  reflexivity.
Defined.

Lemma getitem_slice_witness :
  getitem (accessor 1 "inp") (KSlice (Some 1) None None)
    two_on_disk_one_buffered
  = (Ret (VList [VStr "pwd"; VStr "make"]), two_on_disk_one_buffered).
Proof.
  apply (getitem_slice (accessor 1 "inp") two_on_disk_one_buffered _
           session_meta (Some 1) None two_on_disk_consistent).
Defined.

(** *** The flusher *)

Lemma skipped_by_0 (w : world) : skipped_by 0 w = w.
Proof.
  destruct w as [a b c d e f g h i j hh]. destruct hh.
  unfold skipped_by. simpl. by rewrite Z.add_0_r.
Qed.

Lemma skipped_by_add (k1 k2 : Z) (w : world) :
  skipped_by k2 (skipped_by k1 w) = skipped_by (k1 + k2) w.
Proof. unfold skipped_by. simpl. by rewrite Z.add_assoc. Qed.

Lemma skip_spec (hf : JsonHistoryFlusher) (w : world) :
  skip hf 1 w = (Ret tt, if hf_skip hf then skipped_by 1 w else w).
Proof. unfold skip. by destruct (hf_skip hf). Qed.

(** What the selection loop of [dump] returns: the commands it keeps are
    a sublist of the buffer, and each command it drops was reported
    through [skip]. *)
Lemma dump_select_spec (hf : JsonHistoryFlusher) (opts : gset string)
    (buf : list cmd) :
  forall (last_inp : value) (cmds : list cmd) (w : world) sel w',
    dump_select hf opts buf last_inp cmds w = (Ret sel, w') ->
    exists kept,
      sel = cmds ++ kept /\ kept `sublist_of` buf /\
      w' = if hf_skip hf
           then skipped_by (Z.of_nat (length buf) - Z.of_nat (length kept)) w
           else w.
Proof.
  induction buf as [|c rest IH]; intros last_inp cmds w sel w' H.
  - injection H as <- <-. exists []. rewrite app_nil_r.
    split_and!; [done | done |]. simpl.
    by rewrite skipped_by_0; destruct (hf_skip hf).
  - simpl in H.
    assert (forall last w0,
              dump_select hf opts rest last cmds
                (if hf_skip hf then skipped_by 1 w0 else w0) = (Ret sel, w') ->
              exists kept,
                sel = cmds ++ kept /\ kept `sublist_of` c :: rest /\
                w' = if hf_skip hf
                     then skipped_by (Z.of_nat (length (c :: rest))
                                      - Z.of_nat (length kept)) w0
                     else w0) as Hdrop.
    { intros last w0 H0. apply IH in H0 as (kept & -> & Hsub & ->).
      exists kept. split_and!; [done | by constructor |].
      destruct (hf_skip hf); [|done].
      rewrite skipped_by_add. f_equal. simpl length. lia. }
    assert (forall inp,
              dump_select hf opts rest inp (cmds ++ [c]) w = (Ret sel, w') ->
              exists kept,
                sel = cmds ++ kept /\ kept `sublist_of` c :: rest /\
                w' = if hf_skip hf
                     then skipped_by (Z.of_nat (length (c :: rest))
                                      - Z.of_nat (length kept)) w
                     else w) as Hkeep.
    { intros inp H0. apply IH in H0 as (kept & -> & Hsub & ->).
      exists (c :: kept). rewrite <- app_assoc.
      split_and!; [done | by constructor |].
      destruct (hf_skip hf); [|done]. f_equal. simpl length. lia. }
    unfold bind, dict_getitem, ret, raise in H.
    destruct (bool_decide ("ignoredups" ∈ opts)).
    + destruct (c !! "inp") as [inp|]; [|done].
      destruct (py_eq inp last_inp).
      * rewrite skip_spec in H. by eapply Hdrop.
      * destruct (bool_decide ("ignoreerr" ∈ opts)).
        -- destruct (c !! "rtn") as [rtn|]; [|done].
           destruct (negb (py_eq rtn (VInt 0))).
           ++ rewrite skip_spec in H. by eapply Hdrop.
           ++ by eapply Hkeep.
        -- by eapply Hkeep.
    + destruct (bool_decide ("ignoreerr" ∈ opts)).
      * destruct (c !! "rtn") as [rtn|]; [|done].
        destruct (negb (py_eq rtn (VInt 0))).
        -- rewrite skip_spec in H. by eapply Hdrop.
        -- destruct (c !! "inp") as [inp|]; [|done]. by eapply Hkeep.
      * destruct (c !! "inp") as [inp|]; [|done]. by eapply Hkeep.
Qed.

Lemma dump_select_filters (hf : JsonHistoryFlusher) (opts : gset string)
    (buf : list cmd) :
  forall (last_inp : value) (cmds : list cmd) (w : world) sel w',
    dump_select hf opts buf last_inp cmds w = (Ret sel, w') ->
    exists kept,
      sel = cmds ++ kept /\
      ("ignoredups" ∈ opts -> no_repeat_after last_inp kept) /\
      ("ignoreerr" ∈ opts -> Forall succeeded kept) /\
      ("ignoredups" ∉ opts -> "ignoreerr" ∉ opts -> kept = buf).
Proof.
  induction buf as [|c rest IH]; intros last_inp cmds w sel w' H.
  - injection H as <- <-. exists []. by rewrite app_nil_r.
  - simpl in H. unfold bind, dict_getitem, ret, raise in H.
    destruct (bool_decide_reflect ("ignoredups" ∈ opts)) as [Hd|Hd].
    + destruct (c !! "inp") as [inp|] eqn:Hinp; [|done].
      destruct (py_eq inp last_inp) eqn:Heq.
      * rewrite skip_spec in H.
        apply IH in H as (kept & -> & Hrep & Herr & _).
        exists kept. split_and!; [done | done | done | done].
      * destruct (bool_decide_reflect ("ignoreerr" ∈ opts)) as [He|He].
        -- destruct (c !! "rtn") as [rtn|] eqn:Hrtn; [|done].
           destruct (py_eq rtn (VInt 0)) eqn:Hok; simpl in H.
           ++ apply IH in H as (kept & -> & Hrep & Herr & _).
              exists (c :: kept). rewrite <- app_assoc.
              split_and!; [done | | | done].
              ** intros _. exists inp. auto.
              ** intros _. constructor; [by exists rtn | auto].
           ++ rewrite skip_spec in H.
              apply IH in H as (kept & -> & Hrep & Herr & _).
              exists kept. split_and!; [done | done | done | done].
        -- apply IH in H as (kept & -> & Hrep & Herr & _).
           exists (c :: kept). rewrite <- app_assoc.
           split_and!; [done | | done | done].
           intros _. exists inp. auto.
    + destruct (bool_decide_reflect ("ignoreerr" ∈ opts)) as [He|He].
      * destruct (c !! "rtn") as [rtn|] eqn:Hrtn; [|done].
        destruct (py_eq rtn (VInt 0)) eqn:Hok; simpl in H.
        -- destruct (c !! "inp") as [inp|] eqn:Hinp; [|done].
           apply IH in H as (kept & -> & Hrep & Herr & _).
           exists (c :: kept). rewrite <- app_assoc.
           split_and!; [done | done | | done].
           intros _. constructor; [by exists rtn | auto].
        -- rewrite skip_spec in H.
           apply IH in H as (kept & -> & Hrep & Herr & _).
           exists kept. split_and!; [done | done | done | done].
      * destruct (c !! "inp") as [inp|] eqn:Hinp; [|done].
        apply IH in H as (kept & -> & Hrep & Herr & Hall).
        exists (c :: kept). rewrite <- app_assoc.
        split_and!; [done | done | done |].
        intros _ _. f_equal. auto.
Qed.

(** What a [dump] that returns has done, step by step. *)
Lemma dump_inv (hf : JsonHistoryFlusher) (w w' : world) :
  dump hf w = (Ret tt, w') ->
  exists sel w1 old meta meta',
    dump_select hf (HISTCONTROL w) (hf_buffer hf) VNone [] w = (Ret sel, w1) /\
    fs w !! hf_filename hf = Some (Doc old meta) /\
    w' = with_fs
           (fun m => <[hf_filename hf :=
                         Doc (old ++ (if XONSH_STORE_STDOUT w then sel
                                      else base.delete "out" <$> sel))
                           meta']> m) w1 /\
    (hf_at_exit hf = false -> meta' = meta) /\
    (hf_at_exit hf = true ->
     meta' !! "locked" = Some (VBool false) /\
     (forall k, k <> "locked" -> k <> "ts" -> meta' !! k = meta !! k) /\
     match meta !! "ts" with
     | None => meta' !! "ts" = None
     | Some ts =>
         exists l, ts = VList l /\ (1 < length l)%nat /\
                   meta' !! "ts" = Some (VList (<[1%nat := VFloat (clock w)]> l))
     end).
Proof.
  unfold dump, bind at 1, get. unfold bind at 1.
  destruct (dump_select hf (HISTCONTROL w) (hf_buffer hf) VNone [] w)
    as [[sel| |] w1] eqn:Hsel; [|done..].
  pose proof (dump_select_spec _ _ _ _ _ _ _ _ Hsel) as (kept & _ & _ & Hw1).
  assert (fs w1 = fs w /\ clock w1 = clock w) as [Hfs Hclk]
    by (rewrite Hw1; by destruct (hf_skip hf)).
  unfold bind at 1, read_doc. rewrite Hfs.
  destruct (fs w !! hf_filename hf) as [[|old meta]|]; [done| |done].
  intros H. exists sel, w1, old, meta.
  destruct (hf_at_exit hf).
  - unfold bind at 1 in H. unfold bind at 1 in H.
    destruct (meta !! "ts") as [ts|] eqn:Hts.
    + unfold bind at 1, time_time in H. unfold bind at 1, set_ts_end in H.
      destruct ts as [| | | | |l]; try done.
      destruct (1 <? length l)%nat eqn:Hl; [|done].
      apply Nat.ltb_lt in Hl. simpl in H. injection H as <-.
      eexists. split_and!; [done | done | reflexivity | done |].
      intros _. split_and!.
      * by rewrite lookup_insert_eq.
      * intros k Hk1 Hk2. by rewrite !lookup_insert_ne.
      * exists l. split_and!; [done | done |].
        rewrite lookup_insert_ne by done. rewrite lookup_insert_eq.
        by rewrite Hclk.
    + simpl in H. injection H as <-.
      eexists. split_and!; [done | done | reflexivity | done |].
      intros _. split_and!.
      * by rewrite lookup_insert_eq.
      * intros k Hk1 Hk2. by rewrite lookup_insert_ne.
      * by rewrite lookup_insert_ne.
  - simpl in H. injection H as <-.
    exists meta. split_and!; [done | done | reflexivity | done | done].
Qed.

Lemma world_after_select_fs (hf : JsonHistoryFlusher) (k : Z) (w : world) :
  fs (if hf_skip hf then skipped_by k w else w) = fs w.
Proof. by destruct (hf_skip hf). Qed.

(** X15: a [dump] that returns has only appended to the session file:
    the commands the file held are still there, in order, before the new
    ones; no more commands were added than the flusher's buffer holds; no
    other file was touched; and unless the flush is the one at exit the
    file's metadata is what it was. *)
Theorem dump_appends_only (hf : JsonHistoryFlusher) (w w' : world) :
  dump hf w = (Ret tt, w') ->
  exists old meta new meta',
    fs w !! hf_filename hf = Some (Doc old meta) /\
    fs w' = <[hf_filename hf := Doc (old ++ new) meta']> (fs w) /\
    (length new <= length (hf_buffer hf))%nat /\
    (hf_at_exit hf = false -> meta' = meta).
Proof.
  intros H. apply dump_inv in H
    as (sel & w1 & old & meta & meta' & Hsel & Hfs & -> & Hmeta & _).
  apply dump_select_spec in Hsel as (kept & -> & Hsub & ->). simpl in *.
  eexists old, meta, _, meta'. split_and!; [done | | | done].
  - by rewrite world_after_select_fs.
  - apply sublist_length in Hsub.
    destruct (XONSH_STORE_STDOUT w); rewrite ?length_fmap; lia.
Qed.

(** X16: the commands a [dump] adds are buffered commands, in buffer
    order; when captured output is not stored each is written without its
    [out] key, and when it is stored each is written as it was
    buffered. *)
Theorem dump_strips_out_of_new_commands (hf : JsonHistoryFlusher)
    (w w' : world) (old : list cmd) (meta : gmap string value) :
  dump hf w = (Ret tt, w') ->
  fs w !! hf_filename hf = Some (Doc old meta) ->
  exists sel meta',
    sel `sublist_of` hf_buffer hf /\
    (XONSH_STORE_STDOUT w = true ->
     fs w' !! hf_filename hf = Some (Doc (old ++ sel) meta')) /\
    (XONSH_STORE_STDOUT w = false ->
     fs w' !! hf_filename hf
       = Some (Doc (old ++ (base.delete "out" <$> sel)) meta') /\
     Forall (fun c : cmd => c !! "out" = None) (base.delete "out" <$> sel)).
Proof.
  intros H Hold. apply dump_inv in H
    as (sel & w1 & old' & meta0 & meta' & Hsel & Hfs & -> & _).
  rewrite Hold in Hfs. injection Hfs as <- <-.
  apply dump_select_spec in Hsel as (kept & -> & Hsub & ->). simpl in *.
  exists kept, meta'. split_and!; [done | |].
  - intros ->. by rewrite lookup_insert_eq.
  - intros ->. split; [by rewrite lookup_insert_eq|].
    apply Forall_fmap, Forall_forall. intros c _. simpl.
    apply lookup_delete_eq.
Qed.

(** X17: the flush at exit, when it returns, has cleared the lock and
    stamped the session's end time: [locked] is false, the second element
    of [ts] (when the file has a [ts]) is the current time, and every
    other metadata key is as it was. *)
Theorem dump_at_exit_stamps (hf : JsonHistoryFlusher) (w w' : world)
    (old : list cmd) (meta : gmap string value) :
  hf_at_exit hf = true ->
  dump hf w = (Ret tt, w') ->
  fs w !! hf_filename hf = Some (Doc old meta) ->
  exists cmds meta',
    fs w' !! hf_filename hf = Some (Doc cmds meta') /\
    meta' !! "locked" = Some (VBool false) /\
    (forall k, k <> "locked" -> k <> "ts" -> meta' !! k = meta !! k) /\
    match meta !! "ts" with
    | None => meta' !! "ts" = None
    | Some ts =>
        exists l, ts = VList l /\ (1 < length l)%nat /\
                  meta' !! "ts"
                  = Some (VList (<[1%nat := VFloat (clock w)]> l))
    end.
Proof.
  intros Hx H Hold. apply dump_inv in H
    as (sel & w1 & old' & meta0 & meta' & _ & Hfs & -> & _ & Hstamp).
  rewrite Hold in Hfs. injection Hfs as <- <-.
  eexists _, meta'. split; [simpl; by rewrite lookup_insert_eq|].
  by apply Hstamp.
Qed.

(** X18: what a [dump] writes honours [HISTCONTROL]: with ["ignoredups"]
    no written command has the input of the written command before it;
    with ["ignoreerr"] every written command has exit status 0; with
    neither, the whole buffer is written; and every dropped command is
    counted in [_skipped] through the [skip] callback. *)
Theorem dump_honours_histcontrol (hf : JsonHistoryFlusher) (w w' : world) :
  dump hf w = (Ret tt, w') ->
  exists sel,
    sel `sublist_of` hf_buffer hf /\
    ("ignoredups" ∈ HISTCONTROL w -> no_repeat_after VNone sel) /\
    ("ignoreerr" ∈ HISTCONTROL w -> Forall succeeded sel) /\
    ("ignoredups" ∉ HISTCONTROL w -> "ignoreerr" ∉ HISTCONTROL w ->
     sel = hf_buffer hf) /\
    (hf_skip hf = true ->
     _skipped (hist w')
     = _skipped (hist w)
       + (Z.of_nat (length (hf_buffer hf)) - Z.of_nat (length sel))) /\
    exists old meta meta',
      fs w !! hf_filename hf = Some (Doc old meta) /\
      fs w' !! hf_filename hf
      = Some (Doc (old ++ (if XONSH_STORE_STDOUT w then sel
                           else base.delete "out" <$> sel)) meta').
Proof.
  intros H. apply dump_inv in H
    as (sel & w1 & old & meta & meta' & Hsel & Hfs & -> & _).
  pose proof (dump_select_filters _ _ _ _ _ _ _ _ Hsel)
    as (kept' & E' & Hrep & Herr & Hall).
  apply dump_select_spec in Hsel as (kept & -> & Hsub & ->).
  simpl in E'. subst kept'. simpl.
  exists kept. split_and!; [done | done | done | done | |].
  - by intros ->.
  - exists old, meta, meta'. split; [done|]. by rewrite lookup_insert_eq.
Qed.

(** X19: a flush keeps the session consistent whatever [HISTCONTROL]
    drops: when the flush and its flusher have returned, the buffer is
    empty, nothing waits in the queue, the earlier commands of the file
    are followed by the new ones, and the logical length is again the
    number of commands in the file (dropped commands having been counted
    as skipped). *)
Theorem flush_keeps_session_consistent (at_exit : bool) (w w2 : world)
    (old : list cmd) (meta : gmap string value) :
  consistent w old meta ->
  flush_and_join at_exit w = (Ret tt, w2) ->
  exists new meta',
    consistent w2 (old ++ new) meta' /\
    buffer (hist w2) = [] /\
    (length new <= length (buffer (hist w)))%nat.
Proof.
  intros (Hon & Hq & Hfs & Hlen).
  destruct (decide (buffer (hist w) = [])) as [Hnil|Hne].
  - unfold flush_and_join, flush, bind, get. simpl. rewrite Hnil.
    intros [= <-]. exists [], meta. rewrite app_nil_r.
    split_and!; [done | done | lia].
  - unfold flush_and_join. unfold bind at 1.
    rewrite flush_nonempty by done.
    set (hf := {| hf_id := next_id w; hf_filename := filename (hist w);
                  hf_buffer := buffer (hist w); hf_at_exit := at_exit;
                  hf_skip := true |}).
    set (wA := with_hist (fun h => set_queue (_queue h ++ [next_id w]) h)
                 (with_next_id (S (next_id w)) w)).
    unfold JsonHistoryFlusher_init, bind, fresh, queue_append, modify.
    simpl. fold hf. fold wA.
    assert (forall wX wd,
              fs wX = fs w -> HISTCONTROL wX = HISTCONTROL w ->
              XONSH_STORE_STDOUT wX = XONSH_STORE_STDOUT w ->
              _len (hist wX) = _len (hist w) ->
              _skipped (hist wX) = _skipped (hist w) ->
              filename (hist wX) = filename (hist w) ->
              remember_history (hist wX) = true ->
              dump hf wX = (Ret tt, wd) ->
              exists new meta',
                fs wd !! filename (hist w) = Some (Doc (old ++ new) meta') /\
                _len (hist wd) - _skipped (hist wd)
                = Z.of_nat (length (old ++ new)) /\
                (length new <= length (buffer (hist w)))%nat /\
                filename (hist wd) = filename (hist w) /\
                remember_history (hist wd) = true /\
                _queue (hist wd) = _queue (hist wX)) as Hdump.
    { intros wX wd HfsX Ho Hs HlX HsX HfX HrX Hd.
      apply dump_inv in Hd
        as (sel & w1 & old' & meta0 & meta' & Hsel & Hfs' & -> & _).
      simpl in Hfs'. rewrite HfsX, Hfs in Hfs'. injection Hfs' as <- <-.
      apply dump_select_spec in Hsel as (kept & -> & Hsub & ->).
      simpl. apply sublist_length in Hsub. simpl in Hsub.
      assert (length (if XONSH_STORE_STDOUT wX then kept
                      else base.delete "out" <$> kept) = length kept) as El
        by (destruct (XONSH_STORE_STDOUT wX); by rewrite ?length_fmap).
      eexists _, meta'. split_and!;
        [by rewrite lookup_insert_eq | | | done | done | done].
      - rewrite HlX, HsX, length_app, El. lia.
      - rewrite El. lia. }
    destruct at_exit; simpl.
    + destruct (dump hf wA) as [[[]| |] wd] eqn:Hd; [|done..].
      apply Hdump in Hd as (new & meta' & Hf2 & Hl2 & Hn & Hfn & Hr & Hq2);
        try done.
      unfold queue_popleft. rewrite Hq2. simpl. rewrite Hq. simpl.
      intros [= <-]. exists new, meta'. simpl.
      split_and!; [split_and! | done | done]; try done.
      * simpl. by rewrite Hfn.
      * simpl. rewrite Hl2. lia.
    + unfold run, bind, wait_for_front. simpl. rewrite Hq. simpl.
      rewrite Nat.eqb_refl. fold wA.
      destruct (dump hf (with_hist (set_buffer []) wA))
        as [[[]| |] wd] eqn:Hd; [|done..].
      pose proof (dump_queue _ _ _ _ Hd) as Hqd.
      pose proof Hd as Hd'.
      apply dump_inv in Hd'
        as (sel & w1 & old' & meta0 & meta1 & Hsel & _ & Ewd & _).
      apply dump_select_spec in Hsel as (kept & _ & _ & Ew1).
      apply Hdump in Hd as (new & meta' & Hf2 & Hl2 & Hn & Hfn & Hr & Hq2);
        try done.
      unfold queue_popleft. rewrite Hq2. simpl. rewrite Hq. simpl.
      intros [= <-]. exists new, meta'. simpl.
      split_and!; [split_and! | | done]; try done.
      * simpl. by rewrite Hfn.
      * simpl. rewrite Hl2.
        assert (buffer (hist wd) = []) as -> by (by rewrite Ewd, Ew1).
        simpl. lia.
      * simpl. by rewrite Ewd, Ew1.
Qed.

Lemma dump_appends_only_witness :
  exists old meta new meta',
    fs pending_flush !! session_file = Some (Doc old meta) /\
    fs (dump pending_flusher pending_flush).2
    = <[session_file := Doc (old ++ new) meta']> (fs pending_flush) /\
    (length new <= 1)%nat /\
    (false = false -> meta' = meta).
Proof.
  apply (dump_appends_only pending_flusher pending_flush). reflexivity.
Defined.

Lemma dump_strips_out_of_new_commands_witness :
  exists sel meta',
    sel `sublist_of` [entry "ls" "a.txt"] /\
    (XONSH_STORE_STDOUT pending_flush = true ->
     fs (dump pending_flusher pending_flush).2 !! session_file
     = Some (Doc ([] ++ sel) meta')) /\
    (XONSH_STORE_STDOUT pending_flush = false ->
     fs (dump pending_flusher pending_flush).2 !! session_file
       = Some (Doc ([] ++ (base.delete "out" <$> sel)) meta') /\
     Forall (fun c : cmd => c !! "out" = None) (base.delete "out" <$> sel)).
Proof.
  apply (dump_strips_out_of_new_commands pending_flusher pending_flush _ []
           session_meta); reflexivity.
Defined.

Lemma dump_at_exit_stamps_witness :
  exists cmds meta',
    fs (dump exit_flusher buffered_one).2 !! session_file
      = Some (Doc cmds meta') /\
    meta' !! "locked" = Some (VBool false) /\
    (forall k, k <> "locked" -> k <> "ts" ->
               meta' !! k = session_meta !! k) /\
    exists l, VList [VFloat 0; VNone] = VList l /\ (1 < length l)%nat /\
              meta' !! "ts" = Some (VList (<[1%nat := VFloat 100]> l)).
Proof.
  apply (dump_at_exit_stamps exit_flusher buffered_one _ [] session_meta);
    reflexivity.
Defined.

Lemma dump_honours_histcontrol_witness :
  exists sel,
    sel `sublist_of` [entry "ls" ""; entry "ls" ""; entry "pwd" ""] /\
    ("ignoredups" ∈ HISTCONTROL dups_buffered -> no_repeat_after VNone sel) /\
    ("ignoreerr" ∈ HISTCONTROL dups_buffered -> Forall succeeded sel) /\
    ("ignoredups" ∉ HISTCONTROL dups_buffered ->
     "ignoreerr" ∉ HISTCONTROL dups_buffered ->
     sel = [entry "ls" ""; entry "ls" ""; entry "pwd" ""]) /\
    (true = true ->
     _skipped (hist (dump dups_flusher dups_buffered).2)
     = 0 + (3 - Z.of_nat (length sel))) /\
    exists old meta meta',
      fs dups_buffered !! session_file = Some (Doc old meta) /\
      fs (dump dups_flusher dups_buffered).2 !! session_file
      = Some (Doc (old ++ (if XONSH_STORE_STDOUT dups_buffered then sel
                           else base.delete "out" <$> sel)) meta').
Proof.
  apply (dump_honours_histcontrol dups_flusher dups_buffered). reflexivity.
Defined.

Lemma dups_buffered_consistent : consistent dups_buffered [] session_meta.
Proof. by vm_compute. Qed.

Lemma flush_keeps_session_consistent_witness :
  exists new meta',
    consistent (flush_and_join false dups_buffered).2 ([] ++ new) meta' /\
    buffer (hist (flush_and_join false dups_buffered).2) = [] /\
    (length new <= 3)%nat.
Proof.
  apply (flush_keeps_session_consistent false dups_buffered
           (flush_and_join false dups_buffered).2 []
           session_meta dups_buffered_consistent).
  by vm_compute.
Defined.

(** *** append *)

Section Append.

Variable is_ignored : cmd -> bool.
Variable save_cwd : bool.
Variable buffersize : Z.

Lemma not_recorded_guard (c : cmd) (w : world) :
  ~ not_recorded is_ignored c w ->
  remember_history (hist w) = true /\ is_ignored c = false /\
  bool_decide ("ignorespace" ∈ HISTCONTROL w)
  && py_truthy (dict_get c "spc" VNone) = false.
Proof.
  unfold not_recorded. intros Hn.
  destruct (remember_history (hist w)) eqn:E1; [|tauto].
  destruct (is_ignored c) eqn:E2; [tauto|].
  split_and!; [done | done |].
  destruct (bool_decide_reflect ("ignorespace" ∈ HISTCONTROL w)); [|done].
  destruct (py_truthy (dict_get c "spc" VNone)) eqn:E3; [|done].
  exfalso. apply Hn. right. right. done.
Qed.

(** X20: [append] records nothing and changes nothing when history is
    off, when the command is ignored, or when ["ignorespace"] is set and
    the command carries a true [spc] marker; it returns [None]. *)
Theorem append_not_recorded (c : cmd) (w : world) :
  not_recorded is_ignored c w ->
  append is_ignored save_cwd buffersize c w = (Ret None, w).
Proof.
  unfold not_recorded, append, bind, get.
  intros [Hoff|[Hign|[Hsp Htrue]]].
  - by rewrite Hoff.
  - rewrite Hign. by rewrite orb_true_r.
  - destruct (negb (remember_history (hist w)) || is_ignored c); [done|].
    by rewrite bool_decide_eq_true_2, Htrue.
Qed.

Lemma stored_no_spc (c : cmd) : stored save_cwd c !! "spc" = None.
Proof. unfold stored. apply lookup_delete_eq. Qed.

Lemma stored_field (c : cmd) (fld : string) (dflt : value) :
  fld <> "spc" -> (save_cwd = false -> fld <> "cwd") ->
  dict_get (stored save_cwd c) fld dflt = dict_get c fld dflt.
Proof.
  intros H1 H2. unfold stored, dict_get.
  rewrite lookup_delete_ne by done.
  destruct save_cwd; [done|]. rewrite lookup_delete_ne; [done|].
  intros E. by apply H2.
Qed.

(** X21: a command that is recorded while the buffer stays below
    [buffersize] is appended to the buffer without its [spc] marker (and
    without [cwd] when the working directory is not saved); no file is
    touched, the session stays consistent, and the command is at once the
    last entry of every field accessor. *)
Theorem append_records_in_buffer (self : JsonCommandField) (c : cmd)
    (w : world) (old : list cmd) (meta : gmap string value) :
  consistent w old meta ->
  ~ not_recorded is_ignored c w ->
  Z.of_nat (length (buffer (hist w))) + 1 < buffersize ->
  exists w',
    append is_ignored save_cwd buffersize c w = (Ret None, w') /\
    buffer (hist w') = buffer (hist w) ++ [stored save_cwd c] /\
    stored save_cwd c !! "spc" = None /\
    fs w' = fs w /\
    consistent w' old meta /\
    getitem self (KVal (VInt (-1))) w'
    = (Ret (dict_get (stored save_cwd c) (field self) (default self)), w').
Proof.
  intros Hc Hrec Hroom. pose proof Hc as (Hon & Hq & Hfs & Hlen).
  apply not_recorded_guard in Hrec as (_ & Hign & Hsp).
  unfold append, bind at 1, get. rewrite Hon, Hign, Hsp. simpl.
  unfold bind at 1, modify. unfold bind at 1, get. simpl.
  rewrite length_app. simpl.
  destruct (Z.leb_spec buffersize
              (Z.of_nat (length (buffer (hist w)) + 1))); [lia|].
  eexists. split; [reflexivity|].
  set (w' := with_hist _ w).
  assert (consistent w' old meta) as Hc'.
  { unfold consistent, w'. simpl. rewrite length_app. simpl.
    split_and!; [done | done | done | lia]. }
  split_and!; [done | apply stored_no_spc | done | done |].
  assert (_len (hist w') - _skipped (hist w')
          = Z.of_nat (length old) + Z.of_nat (length (buffer (hist w))) + 1)
    as Hlen' by (unfold w'; simpl; lia).
  rewrite getitem_negative_index_aux by (rewrite ?Hlen'; lia || done).
  rewrite Hlen'.
  replace (Z.of_nat (length old) + Z.of_nat (length (buffer (hist w)))
           + 1 + -1)
    with (Z.of_nat (length old + length (buffer (hist w)))) by lia.
  apply (getitem_reads_logical_list_aux self w' old meta); [done|].
  unfold w'. simpl. rewrite app_assoc.
  rewrite lookup_app_r by (rewrite length_app; lia).
  rewrite length_app, Nat.sub_diag. done.
Qed.


End Append.

Lemma spaced_entry_recorded :
  ~ not_recorded ignore_nothing spaced_entry two_on_disk_one_buffered.
Proof.
  intros [H|[H|[H _]]]; [discriminate H | discriminate H |].
  by apply elem_of_empty in H.
Qed.

Lemma append_not_recorded_witness :
  append ignore_nothing true 100 spaced_entry disabled = (Ret None, disabled).
Proof. apply append_not_recorded. left. reflexivity. Defined.

Lemma append_records_in_buffer_witness :
  exists w',
    append ignore_nothing false 100 spaced_entry two_on_disk_one_buffered
      = (Ret None, w') /\
    buffer (hist w')
      = buffer (hist two_on_disk_one_buffered) ++ [stored false spaced_entry]
    /\
    stored false spaced_entry !! "spc" = None /\
    fs w' = fs two_on_disk_one_buffered /\
    consistent w' [entry "ls" "a.txt"; entry "pwd" "/"] session_meta /\
    getitem (accessor 1 "inp") (KVal (VInt (-1))) w'
    = (Ret (dict_get (stored false spaced_entry) "inp" VNone), w').
Proof.
  apply (append_records_in_buffer ignore_nothing false 100
           (accessor 1 "inp") spaced_entry two_on_disk_one_buffered
           _ session_meta two_on_disk_consistent spaced_entry_recorded).
  simpl. lia.
Defined.


(** *** delete *)

Section Delete.

Variable pmatch : string -> bool.

Lemma pruned_list_refl (l : list cmd) : pruned_list pmatch l l.
Proof. by split. Qed.

Lemma pruned_list_trans (l1 l2 l3 : list cmd) :
  pruned_list pmatch l1 l2 -> pruned_list pmatch l2 l3 ->
  pruned_list pmatch l1 l3.
Proof. intros [S1 F1] [S2 F2]. split; [by etrans | congruence]. Qed.

Lemma take_take_min (l : list cmd) (i : nat) :
  take i (take (S i) l) = take i l.
Proof. rewrite take_take. f_equal. lia. Qed.

Lemma filter_drop_step (P : cmd -> bool) (a b : list cmd) (i : nat) :
  take (S i) a = take (S i) b ->
  List.filter P (drop (S i) a) = List.filter P (drop (S i) b) ->
  List.filter P (drop i a) = List.filter P (drop i b).
Proof.
  intros Ht Hf.
  assert (a !! i = b !! i) as Hi.
  { rewrite <- (lookup_take_lt a (S i) i), <- (lookup_take_lt b (S i) i)
      by lia. by rewrite Ht. }
  destruct (a !! i) as [x|] eqn:Ha.
  - rewrite (drop_S a x i Ha), (drop_S b x i) by done. simpl.
    by rewrite Hf.
  - symmetry in Hi. apply lookup_ge_None in Ha, Hi.
    by rewrite !drop_ge by lia.
Qed.

(** From index [i] on, the loop only takes matching records out. *)
Lemma delete_scan_prunes :
  forall (fuel i : nat) (l : list cmd) (deleted : Z),
    let '(l', _, _) := delete_scan pmatch fuel i l deleted in
    l' `sublist_of` l /\ take i l' = take i l /\
    List.filter (unmatched pmatch) (drop i l')
    = List.filter (unmatched pmatch) (drop i l).
Proof.
  induction fuel as [|fuel IH]; intros i l deleted; simpl; [done|].
  destruct (l !! i) as [c|] eqn:Hc; [|done].
  destruct (match_inp pmatch c) as [e|[|]] eqn:Hm; [done| |].
  - specialize (IH (S i) (base.delete i l) (deleted + 1)).
    destruct (delete_scan pmatch fuel (S i) (base.delete i l) (deleted + 1))
      as [[l' d'] e]. destruct IH as (Hsub & Htake & Hfilt).
    assert (take i (base.delete i l) = take i l) as Htd.
    { apply list_eq. intros j. destruct (decide (j < i)%nat).
      - rewrite !lookup_take_lt by done. by rewrite list_lookup_delete_lt.
      - by rewrite !lookup_take_ge by lia. }
    assert (drop i (base.delete i l) = drop (S i) l) as Hdd.
    { apply list_eq. intros j. rewrite !lookup_drop.
      rewrite list_lookup_delete_ge by lia. done. }
    split_and!.
    + etrans; [done | apply sublist_delete].
    + rewrite <- Htd.
      rewrite <- (take_take_min l' i), <- (take_take_min (base.delete i l) i).
      by rewrite Htake.
    + rewrite (filter_drop_step _ l' (base.delete i l) i Htake Hfilt).
      rewrite Hdd, (drop_S l c i Hc). simpl.
      unfold unmatched at 2. by rewrite Hm.
  - specialize (IH (S i) l deleted).
    destruct (delete_scan pmatch fuel (S i) l deleted) as [[l' d'] e].
    destruct IH as (Hsub & Htake & Hfilt). split_and!; [done | |].
    + rewrite <- (take_take_min l' i), <- (take_take_min l i).
      by rewrite Htake.
    + by apply filter_drop_step.
Qed.

Lemma delete_matching_prunes (l : list cmd) (deleted : Z) :
  pruned_list pmatch l (delete_matching pmatch l deleted).1.1.
Proof.
  unfold delete_matching.
  pose proof (delete_scan_prunes (length l) 0 l deleted) as H.
  destruct (delete_scan pmatch (length l) 0 l deleted) as [[l' d'] e].
  destruct H as (Hsub & _ & Hf). by split.
Qed.

Lemma pruned_file_refl (f : option file) : pruned_file pmatch f f.
Proof.
  destruct f as [[|c m]|]; simpl; [done | | done].
  split; [done | apply pruned_list_refl].
Qed.

#[local] Instance pruned_files_preorder : PreOrder (pruned_files pmatch).
Proof.
  split.
  - intros w. split; [done | intros path; apply pruned_file_refl].
  - intros w1 w2 w3 [H1 F1] [H2 F2]. split; [congruence|].
    intros path. specialize (F1 path). specialize (F2 path).
    destruct (fs w1 !! path) as [[|c1 m1]|], (fs w2 !! path) as [[|c2 m2]|],
      (fs w3 !! path) as [[|c3 m3]|]; simpl in *; try done.
    destruct F1 as [-> P1], F2 as [-> P2].
    split; [done | by eapply pruned_list_trans].
Qed.

Lemma delete_files_prunes (files : list string) :
  forall deleted w o w',
    delete_files pmatch files deleted w = (o, w') ->
    pruned_files pmatch w w'.
Proof.
  induction files as [|f rest IH]; intros deleted w o w'; simpl.
  - intros [= <- <-]. reflexivity.
  - unfold bind at 1, get.
    destruct (fs w !! f) as [[|commands meta]|] eqn:Hf.
    + apply IH.
    + pose proof (delete_matching_prunes commands deleted) as Hp.
      destruct (delete_matching pmatch commands deleted) as [[c' d'] [e|]].
      * intros [= <- <-]. reflexivity.
      * unfold bind, write_doc, modify. intros Hrun. apply IH in Hrun.
        etrans; [|exact Hrun]. split; [done|]. intros path. simpl.
        destruct (decide (path = f)) as [->|Hne].
        -- rewrite lookup_insert_eq, Hf. simpl. by split.
        -- rewrite lookup_insert_ne by done. apply pruned_file_refl.
    + intros [= <- <-]. reflexivity.
Qed.

(** X23: whatever it returns or raises, [delete] only takes matching
    records out: the buffer afterwards is the buffer before with some
    matching records removed (every unmatched record is still there, in
    order); every history file keeps its metadata and its unmatched
    commands; no file appears or disappears and unreadable files are left
    alone; and the length counters are not adjusted. *)
Theorem delete_only_prunes (w : world) :
  let w' := (delete pmatch w).2 in
  pruned_list pmatch (buffer (hist w)) (buffer (hist w')) /\
  (forall path, pruned_file pmatch (fs w !! path) (fs w' !! path)) /\
  _len (hist w') = _len (hist w) /\
  _skipped (hist w') = _skipped (hist w).
Proof.
  cbv zeta. destruct (delete pmatch w) as [o w'] eqn:H. simpl.
  revert H. unfold delete, bind at 1, get.
  pose proof (delete_matching_prunes (buffer (hist w)) 0) as Hb.
  destruct (delete_matching pmatch (buffer (hist w)) 0) as [[buf d] e].
  simpl in Hb. unfold bind at 1, modify.
  destruct e as [e|].
  - intros [= <- <-]. simpl. split_and!; [done | | done | done].
    intros path. apply pruned_file_refl.
  - unfold bind at 1.
    destruct (_xhj_get_history_files true false None
                (with_hist (set_buffer buf) w)) as [o1 w1] eqn:Hg.
    pose proof (get_history_files_pure _ _ _ _ _ _ Hg) as <-.
    destruct o1 as [files| |].
    + intros Hd. apply delete_files_prunes in Hd as [Hh Hf]. simpl in *.
      rewrite Hh. simpl. done.
    + intros [= <- <-]. simpl. split_and!; [done | | done | done].
      intros path. apply pruned_file_refl.
    + intros [= <- <-]. simpl. split_and!; [done | | done | done].
      intros path. apply pruned_file_refl.
Qed.

End Delete.

(** *** pull *)

Section PullMore.

Variable rstrip : string -> string.

Lemma inp_line_world (item : cmd) (w : world) o w' :
  inp_line rstrip item w = (o, w') -> w' = w.
Proof.
  unfold inp_line, bind, dict_getitem, ret, raise.
  destruct (item !! "inp") as [[]|]; by intros [= <- <-].
Qed.

(** What the feeding loop of [pull] has done when it returns. *)
Lemma pull_feed_spec (show : bool) (items : list cmd) :
  forall (prev : option string) (cnt : Z) (w : world) (n : Z) (w' : world)
         (h : list string),
    pull_feed rstrip show items prev cnt w = (Ret n, w') ->
    prompter w = Some h ->
    exists new,
      prompter w' = Some (h ++ new) /\
      n = cnt + Z.of_nat (length new) /\
      (forall x, head new = Some x -> Some x <> prev) /\
      (forall i x y, new !! i = Some x -> new !! S i = Some y -> x <> y).
Proof.
  induction items as [|item rest IH]; intros prev cnt w n w' h; simpl.
  - intros [= <- <-] Hp. exists []. rewrite app_nil_r.
    split_and!; [done | simpl; lia | done | done].
  - unfold bind at 1.
    destruct (inp_line rstrip item w) as [[line| |] w1] eqn:Hl; [|done..].
    apply inp_line_world in Hl as ->.
    unfold bind at 1.
    match goal with
    | |- context [(if show then ?a else ?b) w] =>
        assert (exists w2, (if show then a else b) w = (Ret tt, w2) /\
                           prompter w2 = prompter w) as (w2 & E & Hp2)
          by (destruct show; by eexists);
        rewrite E; clear E
    end.
    destruct (bool_decide_reflect (Some line = prev)) as [Heq|Hne].
    + intros Hrun Hp. rewrite <- Hp2 in Hp.
      destruct (IH _ _ _ _ _ _ Hrun Hp) as (new & Hw' & Hn & Hhead & Hadj).
      exists new. split_and!; [done | done | | done].
      intros x Hx. rewrite <- Heq. by apply Hhead.
    + unfold bind at 1, modify. intros Hrun Hp.
      rewrite <- Hp2 in Hp.
      assert (prompter
                (with_prompter ((fun h0 => h0 ++ [line]) <$> prompter w2) w2)
              = Some (h ++ [line])) as Hp3 by (simpl; by rewrite Hp).
      destruct (IH _ _ _ _ _ _ Hrun Hp3) as (new & Hw' & Hn & Hhead & Hadj).
      exists (line :: new). rewrite <- app_assoc in Hw'.
      split_and!; [done | simpl length; lia | |].
      * intros x [= <-]. done.
      * intros [|i] x y; simpl.
        -- intros [= <-] Hy. intros ->.
           apply (Hhead y); [by rewrite head_lookup | done].
        -- apply Hadj.
Qed.

(** X24: the number [pull] returns is the number of lines it appended to
    the prompter's history; the lines are appended after those already
    there, and no appended line repeats the appended line before it. *)
Theorem pull_counts_appended_lines (show : bool) (src : option string)
    (w : world) (cnt : Z) (w' : world) (h : list string) :
  pull rstrip show src w = (Ret cnt, w') ->
  prompter w = Some h ->
  exists new,
    prompter w' = Some (h ++ new) /\
    cnt = Z.of_nat (length new) /\
    (forall i x y, new !! i = Some x -> new !! S i = Some y -> x <> y).
Proof.
  intros Hrun Hp. revert Hrun. unfold pull, bind at 1, get. rewrite Hp.
  unfold bind at 1.
  destruct (_xhj_pull_items (last_pull_times (hist w)) src w)
    as [o1 w1] eqn:H1.
  apply pull_items_pure in H1 as <-.
  destruct o1 as [items| |]; [|done..].
  unfold bind at 1.
  destruct (pull_feed rstrip show items None 0 w) as [o2 w2] eqn:H2.
  destruct o2 as [n| |]; [|done..].
  destruct (pull_feed_spec _ _ _ _ _ _ _ _ H2 Hp)
    as (new & Hw2 & Hn & _ & Hadj).
  intros Hrest. exists new.
  assert (prompter w' = prompter w2 /\ cnt = n) as [-> ->].
  { revert Hrest. unfold bind, modify, time_time, ret.
    destruct src; by intros [= <- <-]. }
  split_and!; [done | lia | done].
Qed.

(** X25: a [pull] that returns on a shell with a prompter leaves a cursor
    for "all sessions" in the map, so that the lookup [pull_times[None]]
    of the next pull cannot fail. *)
Theorem pull_keeps_full_pull_cursor (show : bool) (src : option string)
    (w : world) (cnt : Z) (w' : world) :
  pull rstrip show src w = (Ret cnt, w') ->
  is_Some (prompter w) ->
  is_Some (last_pull_times (hist w') !! None).
Proof.
  intros Hrun [h Hp]. revert Hrun. unfold pull, bind at 1, get. rewrite Hp.
  unfold bind at 1.
  destruct (_xhj_pull_items (last_pull_times (hist w)) src w)
    as [o1 w1] eqn:H1.
  assert (o1 <> Raise (KeyError "None") ->
          is_Some (last_pull_times (hist w) !! None)) as Hnone.
  { revert H1. unfold _xhj_pull_items.
    destruct (last_pull_times (hist w) !! None); [by eauto|].
    intros [= <- <-]. done. }
  apply pull_items_pure in H1 as <-.
  destruct o1 as [items| |]; [|done..].
  specialize (Hnone ltac:(done)).
  unfold bind at 1.
  destruct (pull_feed rstrip show items None 0 w) as [o2 w2] eqn:H2.
  apply pull_feed_same_hist in H2 as [Hh _].
  destruct o2 as [n| |]; [|done..].
  destruct src as [sid|]; unfold bind, ret, modify, time_time; simpl;
    intros [= <- <-]; simpl.
  - rewrite lookup_insert_ne by done. by rewrite Hh.
  - rewrite lookup_insert_eq. by eexists.
Qed.

End PullMore.

Lemma pull_counts_appended_lines_witness :
  exists new,
    prompter (pull id false None with_other_session).2 = Some ([] ++ new) /\
    1 = Z.of_nat (length new) /\
    (forall i x y, new !! i = Some x -> new !! S i = Some y -> x <> y).
Proof.
  apply (pull_counts_appended_lines id false None with_other_session 1
           (pull id false None with_other_session).2 []).
  - by vm_compute.
  - reflexivity.
Defined.

Lemma pull_keeps_full_pull_cursor_witness :
  is_Some (last_pull_times
             (hist (pull id false (Some "s2") with_other_session).2)
           !! None).
Proof.
  apply (pull_keeps_full_pull_cursor id false (Some "s2") with_other_session
           1 (pull id false (Some "s2") with_other_session).2).
  - by vm_compute.
  - by eexists.
Defined.

(** *** Sorting and the list of history files *)

Section Sorting.

Context {A : Type} (keyf : A -> Q) (rev : bool).

Lemma ordered_trans (a b c : A) :
  ordered keyf rev a b -> ordered keyf rev b c -> ordered keyf rev a c.
Proof.
  unfold ordered. destruct rev; intros H1 H2.
  - by eapply Qle_trans.
  - by eapply Qle_trans.
Qed.

Lemma insert_by_test (x y : A) :
  (if rev then Qle_bool (keyf y) (keyf x) else Qle_bool (keyf x) (keyf y))
  = true <-> ordered keyf rev x y.
Proof. unfold ordered. destruct rev; apply Qle_bool_iff. Qed.

Lemma insert_by_test_false (x y : A) :
  (if rev then Qle_bool (keyf y) (keyf x) else Qle_bool (keyf x) (keyf y))
  = false -> ordered keyf rev y x.
Proof.
  intros H. unfold ordered.
  destruct rev; apply Qlt_le_weak, Qnot_le_lt; intros Hle;
    apply Qle_bool_iff in Hle; congruence.
Qed.

Lemma insert_by_perm (x : A) (l : list A) :
  insert_by keyf rev x l ≡ₚ x :: l.
Proof.
  induction l as [|y l IH]; simpl; [done|].
  case_match; [done|]. rewrite IH. apply Permutation_swap.
Qed.

Lemma sort_by_perm (l : list A) : sort_by keyf rev l ≡ₚ l.
Proof.
  unfold sort_by. induction l as [|x l IH]; simpl; [done|].
  by rewrite insert_by_perm, IH.
Qed.

Lemma insert_by_sorted (x : A) (l : list A) :
  StronglySorted (ordered keyf rev) l ->
  StronglySorted (ordered keyf rev) (insert_by keyf rev x l).
Proof.
  induction 1 as [|y l Hs IH Hall]; simpl.
  - repeat constructor.
  - destruct (if rev then _ else _) eqn:Ht.
    + apply insert_by_test in Ht. constructor; [by constructor|].
      constructor; [done|].
      eapply Forall_impl; [exact Hall|]. intros z Hz.
      by eapply ordered_trans.
    + apply insert_by_test_false in Ht. constructor; [done|].
      rewrite insert_by_perm. by constructor.
Qed.

Lemma sort_by_sorted (l : list A) :
  StronglySorted (ordered keyf rev) (sort_by keyf rev l).
Proof.
  unfold sort_by. induction l as [|x l IH]; simpl; [constructor|].
  by apply insert_by_sorted.
Qed.

End Sorting.

(** X26: [_xhj_get_history_files] with [sort=True] never fails and
    changes nothing; it returns, ordered by modification time (oldest
    first, or newest first on request), exactly the listed files modified
    strictly after [modified_since] (all of them when that is [None]);
    a custom history file that is set is always in the result, put first
    when the listing does not have it. *)
Theorem get_history_files_sorted (newest_first : bool) (since : option Q)
    (w : world) :
  exists (pairs : list (string * Q)) (files : list string),
    _xhj_get_history_files true newest_first since w = (Ret files, w) /\
    pairs ≡ₚ List.filter
               (fun fm : string * Q =>
                  match since with
                  | None => true
                  | Some t => negb (Qle_bool (snd fm) t)
                  end) (dir_listing w) /\
    StronglySorted (ordered snd newest_first) pairs /\
    (files = fst <$> pairs \/
     exists custom, XONSH_HISTORY_FILE w = Some custom /\
                    (custom ∉ (fst <$> pairs)) /\
                    files = custom :: (fst <$> pairs)) /\
    (forall custom, XONSH_HISTORY_FILE w = Some custom -> custom <> "" ->
                    custom ∈ files).
Proof.
  unfold _xhj_get_history_files, bind, get, ret.
  eexists (sort_by snd newest_first _), _.
  split; [reflexivity|].
  split; [apply sort_by_perm|]. split; [apply sort_by_sorted|].
  destruct (XONSH_HISTORY_FILE w) as [custom|]; [|by split; [left|]].
  destruct (String.eqb_spec custom "") as [->|Hne].
  { split; [by left|]. by intros ? [= <-]. }
  destruct (bool_decide_reflect
              (custom ∈ (sort_by snd newest_first
                           (List.filter
                              (fun fm : string * Q =>
                                 match since with
                                 | Some t => negb (Qle_bool fm.2 t)
                                 | None => true
                                 end) (dir_listing w))).*1)) as [Hin|Hnin].
  - split; [by left|]. by intros ? [= <-].
  - split; [right; by exists custom|].
    intros ? [= <-] _. apply elem_of_cons. by left.
Qed.

Lemma pull_newer_spec (cutoff : Q) (rcmds : list cmd) :
  forall items w items' w',
    pull_newer cutoff rcmds items w = (Ret items', w') ->
    exists new,
      items' = items ++ new /\
      Forall (fun p : Q * cmd =>
                p.2 ∈ rcmds /\ (ts_end p.2 w).1 = Ret p.1 /\
                Qle_bool p.1 cutoff = false) new.
Proof.
  induction rcmds as [|item rest IH]; intros items w items' w'; simpl.
  - unfold ret. intros [= <- <-]. exists []. by rewrite app_nil_r.
  - unfold bind at 1.
    destruct (ts_end item w) as [o w1] eqn:Hts.
    pose proof (ts_end_pure item _ _ _ Hts) as <-.
    destruct o as [t| |]; [|done..].
    destruct (Qle_bool t cutoff) eqn:Hle; simpl.
    + unfold ret. intros [= <- <-]. exists []. by rewrite app_nil_r.
    + intros H. apply IH in H as (new & -> & Hall).
      exists ((t, item) :: new). split; [by rewrite <- app_assoc|].
      constructor; simpl.
      * split; [apply elem_of_cons; by left|]. by rewrite Hts.
      * eapply Forall_impl; [exact Hall|]. intros p (Hin & ? & ?).
        split; [apply elem_of_cons; by right|done].
Qed.

Lemma pull_paths_spec (pt : gmap (option string) Q) (t0 : Q) (cur : string)
    (paths : list string) :
  forall items w items' w',
    pull_paths pt t0 cur paths items w = (Ret items', w') ->
    exists new,
      items' = items ++ new /\
      Forall (fun p => exists path, path ∈ paths /\
                                    pulled_from pt t0 cur w path p) new.
Proof.
  induction paths as [|path rest IH]; intros items w items' w'; simpl.
  - unfold ret. intros [= <- <-]. exists []. by rewrite app_nil_r.
  - assert (forall new : list (Q * cmd),
              Forall (fun p => exists path, path ∈ rest /\
                                 pulled_from pt t0 cur w path p) new ->
              Forall (fun p => exists path0, path0 ∈ path :: rest /\
                                 pulled_from pt t0 cur w path0 p) new)
      as Hweak.
    { intros new Hn. eapply Forall_impl; [exact Hn|].
      intros p (q & Hq & Hp).
      exists q. split; [apply elem_of_cons; by right|done]. }
    destruct (String.eqb_spec path cur) as [->|Hne].
    { intros H. apply IH in H as (new & -> & Hall). exists new. auto. }
    unfold bind at 1, get.
    destruct (fs w !! path) as [[|cmds meta]|] eqn:Hf; [| |done].
    + intros H. apply IH in H as (new & -> & Hall). exists new. auto.
    + unfold bind at 1.
      destruct (pull_newer _ (reverse cmds) items w) as [o w1] eqn:Hn.
      pose proof (pull_newer_pure _ _ _ _ _ _ Hn) as <-.
      destruct o as [items1| |]; [|done..].
      apply pull_newer_spec in Hn as (new1 & -> & Hall1).
      intros H. apply IH in H as (new2 & -> & Hall2).
      exists (new1 ++ new2). split; [by rewrite app_assoc|].
      apply Forall_app. split; [|auto].
      eapply Forall_impl; [exact Hall1|]. intros p (Hin & Hts & Hcut).
      exists path. split; [apply elem_of_cons; by left|].
      split; [done|]. exists cmds, meta.
      split; [done|]. split; [by apply elem_of_reverse|]. done.
Qed.

(** X27: when [_xhj_pull_items] returns, it has changed nothing, and
    the items come ordered by end time; each of them is a command of a
    readable history file other than the current session's, with an end
    time strictly after the cursor kept for that file's session (after
    the cursor for all sessions when there is none); and when a source
    session is named, of that session's file only. *)
Theorem pull_items_sorted_newer (pt : gmap (option string) Q)
    (src : option string) (w : world) (items : list cmd) (w' : world) :
  _xhj_pull_items pt src w = (Ret items, w') ->
  exists (t0 : Q) (pairs : list (Q * cmd)),
    pt !! None = Some t0 /\ w' = w /\ items = snd <$> pairs /\
    StronglySorted (ordered fst false) pairs /\
    Forall (fun p => exists path,
              pulled_from pt t0 (current_session_path w) w path p /\
              forall sid, src = Some sid -> sid <> "" ->
                path = data_dir w +:+ "/xonsh-" +:+ sid +:+ ".json")
           pairs.
Proof.
  intros H. pose proof (pull_items_pure _ _ _ _ _ H) as <-.
  revert H. unfold _xhj_pull_items.
  destruct (pt !! None) as [t0|]; [|done].
  unfold bind at 1, get. unfold bind at 1.
  set (paths_m := match src with
                  | Some sid => _
                  | None => _
                  end).
  destruct (paths_m w) as [o w1] eqn:Hp.
  assert (w1 = w /\
          forall paths, o = Ret paths -> forall sid, src = Some sid ->
            sid <> "" ->
            paths = [data_dir w +:+ "/xonsh-" +:+ sid +:+ ".json"])
    as [-> Hone].
  { subst paths_m. destruct src as [sid|].
    - destruct (String.eqb_spec sid "") as [->|Hne].
      + split; [symmetry; by eapply get_history_files_pure|].
        by intros ? _ ? [= <-].
      + unfold ret in Hp. injection Hp as <- <-.
        split; [done|]. by intros ? [= <-] ? [= <-] _.
    - split; [symmetry; by eapply get_history_files_pure|]. done. }
  destruct o as [paths| |]; [|done..].
  unfold bind at 1.
  destruct (pull_paths _ _ _ paths [] w) as [o2 w2] eqn:Hpp.
  destruct o2 as [found| |]; [|done..].
  unfold ret. intros [= <-].
  apply pull_paths_spec in Hpp as (new & -> & Hall). simpl in Hall.
  exists t0, (sort_by fst false new).
  split; [done|]. split; [done|]. split; [done|].
  split; [apply sort_by_sorted|].
  rewrite sort_by_perm.
  eapply Forall_impl; [exact Hall|]. intros p (path & Hin & Hfrom).
  exists path. split; [exact Hfrom|].
  intros sid Hs Hne. rewrite (Hone paths eq_refl sid Hs Hne) in Hin.
  by apply list_elem_of_singleton in Hin.
Qed.

Lemma pull_items_sorted_newer_witness :
  exists pairs : list (Q * cmd),
    [entry_at "make" 70] = snd <$> pairs /\
    StronglySorted (ordered fst false) pairs.
Proof.
  destruct (pull_items_sorted_newer {[ None := 50%Q ]} None
              with_other_session [entry_at "make" 70] with_other_session)
    as (t0 & pairs & _ & _ & Hitems & Hsorted & _); [by vm_compute|].
  by exists pairs.
Defined.

End SessionFacts.
